(** * scarlet: bounding-box algebra and component projection

    A shallow embedding of [scarlet/bbox.py] and [scarlet/component.py].

    - [Py]: exceptions of Python as an error monad.
    - [Heap]: a store for the arrays, which are mutated in place.
    - [np]: the fragment of numpy they rely on (n-dimensional arrays held
      as a shape and a row-major buffer, basic slicing, assignment to a
      slice with broadcasting, in-place arithmetic).
    - [Box]: class [Box] of [bbox.py].
    - [Component], [FactorizedComponent], [CubeComponent],
      [CombinedComponent]: the classes of [component.py].

    Element values of arrays are kept abstract (class [np.Elem]); numeric
    conversion between element types is not part of the model, the element
    type of an array is carried as a tag. *)

From stdpp Require Import base numbers option list strings.

Set Warnings "-register-all".

(* ===================================================================== *)
(** * Python: exceptions *)
(* ===================================================================== *)

Module Py.

Inductive exn :=
| AssertionError
| AttributeError
| TypeError
| ValueError
| IndexError.

Inductive result (A : Type) :=
| Ok (a : A)
| Raise (e : exn).
Global Arguments Ok {A} a.
Global Arguments Raise {A} e.

Definition bind {A B} (m : result A) (k : A -> result B) : result B :=
  match m with
  | Ok a => k a
  | Raise e => Raise e
  end.

Definition raises {A} (m : result A) : Prop := exists e, m = Raise e.

(** [assert cond] *)
Definition assert (cond : bool) : result unit :=
  if cond then Ok tt else Raise AssertionError.

End Py.

Import Py.

Notation "'let!' x ':=' m 'in' k" := (Py.bind m (fun x => k))
  (at level 10, x pattern, m at level 100, k at level 200).
Notation "m ';;!' k" := (Py.bind m (fun _ => k))
  (at level 100, k at level 200, right associativity).

(* ===================================================================== *)
(** * numpy: arrays, basic slicing, assignment *)
(* ===================================================================== *)

Module np.

(** Element types, as far as the sources name them: [np.zeros] without
    [dtype] allocates [float64]. *)
Inductive scalar_type := bool_ | int32 | int64 | float32 | float64.

Global Instance scalar_type_eq_dec : EqDecision scalar_type.
Proof. solve_decision. Defined.

(** numpy's promotion of two element types in a binary operation. *)
Definition result_type (a b : scalar_type) : scalar_type :=
  match a, b with
  | bool_, t | t, bool_ => t
  | float64, _ | _, float64 => float64
  | float32, float32 => float32
  | float32, _ | _, float32 => float64
  | int64, _ | _, int64 => int64
  | int32, int32 => int32
  end.

(** What the sources need of the elements: the zero of [np.zeros] and
    the two operations of [+=] and [*=]. *)
Class Elem (V : Type) := {
  zero : V;
  add : V -> V -> V;
  mul : V -> V -> V
}.

(** [slice(start, stop)]; [None] is the missing bound of [:]. *)
Record slice := Slice { start : option Z; stop : option Z }.

(** One entry of an index tuple: a slice or [None] (a new axis). *)
Inductive index := Idx (s : slice) | newaxis.

(** [PySlice_AdjustIndices] for step 1: a negative bound counts from the
    end, and both bounds are clipped to [0 .. len]. *)
Definition adjust (len i : Z) : Z :=
  if (i <? 0)%Z then Z.max (i + len) 0 else Z.min i len.

(** [slice.indices(len)] as first index and number of indices. *)
Definition indices (s : slice) (len : nat) : nat * nat :=
  let a := from_option (adjust (Z.of_nat len)) 0%Z (start s) in
  let b := from_option (adjust (Z.of_nat len)) (Z.of_nat len) (stop s) in
  (Z.to_nat a, Z.to_nat (b - a)).

(** Number of elements of a shape. *)
Definition size (sh : list nat) : nat := foldr Nat.mul 1 sh.

(** Row-major offset of an index, and the index of an offset. *)
Fixpoint ravel (sh idx : list nat) : nat :=
  match sh, idx with
  | _ :: sh', i :: idx' => i * size sh' + ravel sh' idx'
  | _, _ => 0
  end.

Fixpoint unravel (sh : list nat) (k : nat) : list nat :=
  match sh with
  | [] => []
  | _ :: sh' => k / size sh' :: unravel sh' (k mod size sh')
  end.

(** An index is valid for a shape: same length, every entry in range. *)
Fixpoint inb (sh idx : list nat) : bool :=
  match sh, idx with
  | [], [] => true
  | d :: sh', i :: idx' => (i <? d) && inb sh' idx'
  | _, _ => false
  end.

(** An axis of a view: a range of an axis of the base, or a new axis. *)
Inductive axis := Range (first count : nat) | New.

Definition axis_len (ax : axis) : nat :=
  match ax with Range _ n => n | New => 1 end.

(** Resolve an index tuple against a shape; axes the tuple does not
    reach are taken whole, a tuple with more slices than axes is an
    [IndexError]. *)
Fixpoint resolve (sh : list nat) (ix : list index) : result (list axis) :=
  match ix with
  | [] => Ok ((fun d => Range 0 d) <$> sh)
  | newaxis :: ix' => let! r := resolve sh ix' in Ok (New :: r)
  | Idx s :: ix' =>
      match sh with
      | [] => Raise IndexError
      | d :: sh' =>
          let! r := resolve sh' ix' in
          Ok (Range (indices s d).1 (indices s d).2 :: r)
      end
  end.

Definition view_shape (axes : list axis) : list nat := axis_len <$> axes.

(** The index in the base array of the element at [idx] of the view. *)
Fixpoint source (axes : list axis) (idx : list nat) : list nat :=
  match axes, idx with
  | Range a _ :: axes', i :: idx' => (a + i) :: source axes' idx'
  | New :: axes', _ :: idx' => source axes' idx'
  | _, _ => []
  end.

(** The index in the view of the element at [idx] of the base array, if
    the view covers it. *)
Fixpoint locate (axes : list axis) (idx : list nat) : option (list nat) :=
  match axes, idx with
  | [], [] => Some []
  | New :: axes', _ => cons 0 <$> locate axes' idx
  | Range a n :: axes', i :: idx' =>
      if (a <=? i) && (i <? a + n)
      then cons (i - a) <$> locate axes' idx'
      else None
  | _, _ => None
  end.

(** Broadcasting, on reversed shapes (numpy aligns the last axes).
    [bc_ok strip v r]: an array of shape [r] broadcasts to shape [v];
    with [strip], leading axes of length 1 in excess are dropped, as
    assignment does. *)
Fixpoint bc_ok (strip : bool) (rv rr : list nat) : bool :=
  match rv, rr with
  | _, [] => true
  | [], r :: rr' => strip && (r =? 1) && bc_ok strip [] rr'
  | v :: rv', r :: rr' => ((r =? v) || (r =? 1)) && bc_ok strip rv' rr'
  end.

Fixpoint bc_idx (rr ridx : list nat) : list nat :=
  match rr with
  | [] => []
  | r :: rr' => (if r =? 1 then 0 else hd 0 ridx) :: bc_idx rr' (tl ridx)
  end.

Definition broadcastable (strip : bool) (vsh rsh : list nat) : bool :=
  bc_ok strip (reverse vsh) (reverse rsh).

(** The index in an array of shape [rsh] that supplies the element at
    [idx] of the shape it is broadcast to. *)
Definition bsource (rsh idx : list nat) : list nat :=
  reverse (bc_idx (reverse rsh) (reverse idx)).

(** Shape of the result of a binary operation. *)
Fixpoint bc_shape (ra rb : list nat) : option (list nat) :=
  match ra, rb with
  | [], l | l, [] => Some l
  | a :: ra', b :: rb' =>
      if a =? b then cons a <$> bc_shape ra' rb'
      else if a =? 1 then cons b <$> bc_shape ra' rb'
      else if b =? 1 then cons a <$> bc_shape ra' rb'
      else None
  end.

Section Arrays.
Context {V : Type} `{Elem V}.

(** An array: its shape, its elements in row-major order, its element
    type. *)
Record ndarray := Array {
  shape : list nat;
  buf : list V;
  dtype : scalar_type
}.

(** The buffer holds exactly the elements of the shape. *)
Definition wf (a : ndarray) : bool :=
  length (buf a) =? size (shape a).

Definition ndim (a : ndarray) : nat := length (shape a).

(** [a[i, j, ...]] for an integer index that addresses one element. *)
Definition item (a : ndarray) (idx : list nat) : option V :=
  if inb (shape a) idx then buf a !! ravel (shape a) idx else None.

Definition get (a : ndarray) (idx : list nat) : V :=
  default zero (item a idx).

(** The buffer whose element at index [idx] is [f idx]. *)
Definition tabulate (sh : list nat) (f : list nat -> V) : list V :=
  (fun k => f (unravel sh k)) <$> seq 0 (size sh).

(** [np.zeros(shape, dtype)] *)
Definition zeros (sh : list Z) (dt : scalar_type) : result ndarray :=
  if forallb (fun d => 0 <=? d)%Z sh
  then Ok (Array (Z.to_nat <$> sh)
                 (replicate (size (Z.to_nat <$> sh)) zero) dt)
  else Raise ValueError.

(** [a[ix]] (the elements of the view, copied out). *)
Definition getitem (a : ndarray) (ix : list index) : result ndarray :=
  let! axes := resolve (shape a) ix in
  Ok (Array (view_shape axes)
            (tabulate (view_shape axes) (fun idx => get a (source axes idx)))
            (dtype a)).

(** [a[ix] = v]: the array after the assignment. *)
Definition setitem (a : ndarray) (ix : list index) (v : ndarray)
  : result ndarray :=
  let! axes := resolve (shape a) ix in
  if broadcastable true (view_shape axes) (shape v)
  then Ok (Array (shape a)
             (tabulate (shape a) (fun idx =>
                match locate axes idx with
                | Some j => get v (bsource (shape v) j)
                | None => get a idx
                end))
             (dtype a))
  else Raise ValueError.

(** [a op= b] for an elementwise operation: the array after it. *)
Definition inplace (f : V -> V -> V) (a b : ndarray) : result ndarray :=
  if broadcastable false (shape a) (shape b)
  then Ok (Array (shape a)
             (tabulate (shape a) (fun idx =>
                f (get a idx) (get b (bsource (shape b) idx))))
             (dtype a))
  else Raise ValueError.

(** [a op b] for an elementwise operation: a new array. *)
Definition binary (f : V -> V -> V) (a b : ndarray) : result ndarray :=
  match bc_shape (reverse (shape a)) (reverse (shape b)) with
  | Some rsh =>
      let sh := reverse rsh in
      Ok (Array sh
            (tabulate sh (fun idx =>
               f (get a (bsource (shape a) idx))
                 (get b (bsource (shape b) idx))))
            (result_type (dtype a) (dtype b)))
  | None => Raise ValueError
  end.

End Arrays.

Global Arguments ndarray V : clear implicits.

(** Comparison of elements, for [a > v]. *)
Class Ord (V : Type) := { gt : V -> V -> bool }.

Section Select.
Context {V : Type} `{Ord V}.

(** [a > v]: the array of the truth values, element by element. *)
Definition greater (a : ndarray V) (v : V) : ndarray bool :=
  Array (shape a) ((fun x => gt x v) <$> buf a) bool_.

(** [sel.any()] *)
Definition any (sel : ndarray bool) : bool := existsb id (buf sel).

(** The indices of the true elements of [sel], in row-major order. *)
Definition hits (sel : ndarray bool) : list (list nat) :=
  filter (fun idx => item sel idx = Some true)
         (unravel (shape sel) <$> seq 0 (size (shape sel))).

(** [np.where(sel)]: one array for each axis, the coordinates on that
    axis of the true elements. *)
Definition where_ (sel : ndarray bool) : list (list nat) :=
  (fun d => (fun idx => default 0 (idx !! d)) <$> hits sel)
    <$> seq 0 (length (shape sel)).

(** [a.min()] and [a.max()] of an array of one axis; an empty array has
    neither. *)
Definition amin (a : list nat) : result nat :=
  match a with
  | [] => Raise ValueError
  | x :: a' => Ok (foldr Nat.min x a')
  end.

Definition amax (a : list nat) : result nat :=
  match a with
  | [] => Raise ValueError
  | x :: a' => Ok (foldr Nat.max x a')
  end.

End Select.

End np.

(* ===================================================================== *)
(** * bbox.py: class Box *)
(* ===================================================================== *)

Module Box.

(** A box holds two 3-tuples; [__init__] is the only place that sets
    them from arguments, and it asserts their length. *)
Record t := Box { shape : Z * Z * Z; origin : Z * Z * Z }.

Definition tuple (x : Z * Z * Z) : list Z := [x.1.1; x.1.2; x.2].

(** [Box(shape, origin=(0, 0, 0))] *)
Definition __init__ (shape : list Z) (origin : list Z) : result t :=
  let shape := if length shape =? 2 then 0%Z :: shape else shape in
  assert (length shape =? 3) ;;!
  let origin := if length origin =? 2 then 0%Z :: origin else origin in
  assert (length origin =? 3) ;;!
  match shape, origin with
  | [s0; s1; s2], [o0; o1; o2] => Ok (Box (s0, s1, s2) (o0, o1, o2))
  | _, _ => Raise AssertionError
  end.

Definition default_origin : list Z := [0; 0; 0]%Z.

(** The properties. *)
Definition C (self : t) : Z := (shape self).1.1.
Definition Ny (self : t) : Z := (shape self).1.2.
Definition Nx (self : t) : Z := (shape self).2.
Definition front (self : t) : Z := (origin self).1.1.
Definition bottom (self : t) : Z := (origin self).1.2.
Definition left (self : t) : Z := (origin self).2.
Definition back (self : t) : Z := ((origin self).1.1 + (shape self).1.1)%Z.
Definition top (self : t) : Z := ((origin self).1.2 + (shape self).1.2)%Z.
Definition right (self : t) : Z := ((origin self).2 + (shape self).2)%Z.

(** [Box.from_bounds(front, back, bottom, top, left, right)] *)
Definition from_bounds (front back bottom top left right : Z) : result t :=
  let '(back, front) :=
    if (back <? front)%Z then (front, back) else (back, front) in
  let '(top, bottom) :=
    if (top <? bottom)%Z then (bottom, top) else (top, bottom) in
  let '(right, left) :=
    if (right <? left)%Z then (left, right) else (right, left) in
  __init__ [back - front; top - bottom; right - left]%Z [front; bottom; left].

(** [self | other] *)
Definition __or__ (self other : t) : result t :=
  let front := Z.min (front self) (front other) in
  let back := Z.max (back self) (back other) in
  let bottom := Z.min (bottom self) (bottom other) in
  let top := Z.max (top self) (top other) in
  let left := Z.min (left self) (left other) in
  let right := Z.max (right self) (right other) in
  from_bounds front back bottom top left right.

(** [self & other] *)
Definition __and__ (self other : t) : result t :=
  let front := Z.max (front self) (front other) in
  let back := Z.min (back self) (back other) in
  let bottom := Z.max (bottom self) (bottom other) in
  let top := Z.min (top self) (top other) in
  let left := Z.max (left self) (left other) in
  let right := Z.min (right self) (right other) in
  from_bounds front back bottom top left right.

(** [self += offset] and [self -= offset], for an offset that is a
    3-tuple (the sources pass the origin of a box). *)
Definition __iadd__ (self : t) (offset : Z * Z * Z) : t :=
  let '(a0, a1, a2) := origin self in
  let '(o0, o1, o2) := offset in
  Box (shape self) (a0 + o0, a1 + o1, a2 + o2)%Z.

Definition __isub__ (self : t) (offset : Z * Z * Z) : t :=
  let '(a0, a1, a2) := origin self in
  let '(o0, o1, o2) := offset in
  Box (shape self) (a0 - o0, a1 - o1, a2 - o2)%Z.

(** [self == other] *)
Definition __eq__ (self other : t) : bool :=
  bool_decide (shape self = shape other)
  && bool_decide (origin self = origin other).

(** [self.contains(p)]: the loop over [range(len(self.shape))] leaves at
    the first coordinate out of range. *)
Fixpoint contains_loop (self : t) (p : list Z) (ds : list nat) : result bool :=
  match ds with
  | [] => Ok true
  | d :: ds' =>
      match p !! d, tuple (origin self) !! d, tuple (shape self) !! d with
      | Some pd, Some od, Some sd =>
          if (pd <? od)%Z || (pd >? od + sd)%Z
          then Ok false
          else contains_loop self p ds'
      | _, _, _ => Raise IndexError
      end
  end.

Definition contains (self : t) (p : list Z) : result bool :=
  let p := if length p =? 2 then 0%Z :: p else p in
  contains_loop self p (seq 0 (length (tuple (shape self)))).

(** ** Attributes and the call of the class

    What [__copy__] needs: reading an attribute by name and calling
    [Box] with positional and keyword arguments. *)

Inductive value :=
| VInt (n : Z)
| VTuple (l : list Z)
| VBound (name : string).

(** Names bound in the class body, apart from the properties. *)
Definition methods : list string :=
  ["__init__"; "from_image"; "from_bounds"; "from_data"; "contains";
   "slices_for"; "extract_from"; "insert_into"; "__or__"; "__and__";
   "__str__"; "__repr__"; "__iadd__"; "__isub__"; "__copy__"; "__eq__"].

(** Names every instance of a class inherits from [object]. *)
Definition object_names : list string :=
  ["__class__"; "__delattr__"; "__dict__"; "__dir__"; "__doc__";
   "__format__"; "__ge__"; "__getattribute__"; "__gt__"; "__hash__";
   "__init_subclass__"; "__le__"; "__lt__"; "__module__"; "__ne__";
   "__new__"; "__reduce__"; "__reduce_ex__"; "__setattr__";
   "__sizeof__"; "__subclasshook__"; "__weakref__"].

Definition properties : list (string * (t -> Z)) :=
  [("C", C); ("Ny", Ny); ("Nx", Nx); ("front", front); ("bottom", bottom);
   ("left", left); ("back", back); ("top", top); ("right", right)].

Fixpoint assoc {A} (k : string) (l : list (string * A)) : option A :=
  match l with
  | [] => None
  | (k', v) :: l' => if String.eqb k k' then Some v else assoc k l'
  end.

Definition mem (k : string) (l : list string) : bool :=
  existsb (String.eqb k) l.

(** [self.name] *)
Definition getattr (self : t) (name : string) : result value :=
  match assoc name properties with
  | Some f => Ok (VInt (f self))
  | None =>
      if String.eqb name "shape" then Ok (VTuple (tuple (shape self)))
      else if String.eqb name "origin" then Ok (VTuple (tuple (origin self)))
      else if mem name methods || mem name object_names then Ok (VBound name)
      else Raise AttributeError
  end.

(** [len(v)] *)
Definition as_tuple (v : value) : result (list Z) :=
  match v with
  | VTuple l => Ok l
  | _ => Raise TypeError
  end.

(** A call of [Box] with positional and keyword arguments: they are
    bound to the parameters
    [shape] and [origin] of [__init__], then its body runs. *)
Definition call (args : list value) (kwargs : list (string * value))
  : result t :=
  if negb (forallb (fun kv => mem kv.1 ["shape"; "origin"]) kwargs)
  then Raise TypeError
  else
    match args with
    | [] =>
        match assoc "shape" kwargs with
        | None => Raise TypeError
        | Some s =>
            let! s := as_tuple s in
            match assoc "origin" kwargs with
            | None => __init__ s default_origin
            | Some o => let! o := as_tuple o in __init__ s o
            end
        end
    | [s] =>
        if mem "shape" (fst <$> kwargs) then Raise TypeError
        else
          let! s := as_tuple s in
          match assoc "origin" kwargs with
          | None => __init__ s default_origin
          | Some o => let! o := as_tuple o in __init__ s o
          end
    | [s; o] =>
        if negb (forallb (fun _ => false) kwargs) then Raise TypeError
        else let! s := as_tuple s in let! o := as_tuple o in __init__ s o
    | _ => Raise TypeError
    end.

(** [self.__copy__()]: [Box(self.shape, offset=self.offset)]; the
    arguments are evaluated from left to right before the call. *)
Definition __copy__ (self : t) : result t :=
  let! a := getattr self "shape" in
  let! o := getattr self "offset" in
  call [a] [("offset", o)].

(** Modelled from the spec: [overlapped_slices], which [component.py]
    imports from [bbox.py], is missing from the sources. The spec has it
    compute "the overlap index-range pair" of two regions, "the paired
    per-axis index ranges that let two arrays with different origins be
    sliced consistently over their shared spatial extent": the
    intersection of the two boxes, expressed once from the origin of
    the first box and once from the origin of the second. *)
Definition ranges (b : t) : list np.slice :=
  [np.Slice (Some (front b)) (Some (back b));
   np.Slice (Some (bottom b)) (Some (top b));
   np.Slice (Some (left b)) (Some (right b))].

Definition overlapped_slices (bbox1 bbox2 : t)
  : result (list np.slice * list np.slice) :=
  let! overlap := __and__ bbox1 bbox2 in
  Ok (ranges (__isub__ overlap (origin bbox1)),
      ranges (__isub__ overlap (origin bbox2))).

(** Modelled from the spec: the operator [@] that
    [FactorizedComponent.__init__] applies to two boxes is missing from
    class [Box]. The spec has the box of a factorized node be "the
    intersection of its spectrum's and morphology's bboxes". *)
Definition __matmul__ (self other : t) : result t := __and__ self other.

Section WithArrays.
Context {V : Type} `{np.Elem V}.

(** [Box.from_image(image)] *)
Definition from_image (image : np.ndarray V) : result t :=
  __init__ (Z.of_nat <$> np.shape image) default_origin.

(** The argument of [slices_for]: an array or a shape. *)
Inductive im_or_shape :=
| Im (image : np.ndarray V)
| Shape (shape : list Z).

Definition slice_of (lo hi : Z) : np.slice := np.Slice (Some lo) (Some hi).

(** [self.slices_for(im_or_shape)] *)
Definition slices_for (self : t) (x : im_or_shape) : result (list np.slice) :=
  let shape :=
    match x with
    | Im image => Z.of_nat <$> np.shape image
    | Shape shape => shape
    end in
  assert ((length shape =? 2) || (length shape =? 3)) ;;!
  let! im_box := __init__ shape default_origin in
  let! overlap := __and__ self im_box in
  let zslice := slice_of (front overlap) (back overlap) in
  let yslice := slice_of (bottom overlap) (top overlap) in
  let xslice := slice_of (left overlap) (right overlap) in
  if length shape =? 2
  then Ok [yslice; xslice]
  else Ok [zslice; yslice; xslice].

(** [self.extract_from(image, sub=None)]; the value returned is the
    array [sub] after the assignment. *)
Definition extract_from (self : t) (image : np.ndarray V)
    (sub : option (np.ndarray V)) : result (np.ndarray V) :=
  let! imbox := from_image image in
  let! sub :=
    match sub with
    | Some sub => Ok sub
    | None =>
        if length (np.shape image) =? 3
        then np.zeros (tuple (shape self)) np.float64
        else np.zeros (tail (tuple (shape self))) np.float64
    end in
  let! subbox := from_image sub in
  let imbox := __isub__ imbox (origin self) in
  let! overlap := __and__ imbox subbox in
  let! src := slices_for self (Im image) in
  let! v := np.getitem image (np.Idx <$> src) in
  let! dst := slices_for overlap (Im sub) in
  np.setitem sub (np.Idx <$> dst) v.

(** [self.insert_into(image, sub)]; the value returned is the array
    [image] after the assignment. *)
Definition insert_into (self : t) (image sub : np.ndarray V)
  : result (np.ndarray V) :=
  let! imbox := from_image image in
  let! subbox := from_image sub in
  let imbox := __isub__ imbox (origin self) in
  let! overlap := __and__ imbox subbox in
  let! src := slices_for overlap (Im sub) in
  let! v := np.getitem sub (np.Idx <$> src) in
  let! dst := slices_for self (Im image) in
  np.setitem image (np.Idx <$> dst) v.

End WithArrays.

Global Arguments im_or_shape V : clear implicits.

Section FromData.
Context {V : Type} `{np.Ord V}.

(** The loop of [from_data] over the axes: the smallest coordinate of a
    selected element and the largest plus one. *)
Fixpoint bounds_loop (nonzero : list (list nat)) (dims : list nat)
  : result (list Z) :=
  match dims with
  | [] => Ok []
  | dim :: rest =>
      match nonzero !! dim with
      | None => Raise IndexError
      | Some col =>
          let! lo := np.amin col in
          let! hi := np.amax col in
          let! bounds := bounds_loop nonzero rest in
          Ok (Z.of_nat lo :: (Z.of_nat hi + 1)%Z :: bounds)
      end
  end.

(** [Box.from_data(X, min_value=0)]; [from_bounds], called with the
    list of bounds unpacked, takes exactly six arguments. *)
Definition from_data (X : np.ndarray V) (min_value : V) : result t :=
  let sel := np.greater X min_value in
  let! bounds :=
    if np.any sel
    then
      let nonzero := np.where_ sel in
      let! bounds := bounds_loop nonzero (seq 0 (length (np.shape X))) in
      if length (np.shape X) =? 2
      then Ok (0%Z :: 0%Z :: bounds)
      else Ok bounds
    else Ok (replicate 6 0%Z) in
  match bounds with
  | [front; back; bottom; top; left; right] =>
      from_bounds front back bottom top left right
  | _ => Raise TypeError
  end.

End FromData.

End Box.

(* ===================================================================== *)
(** * Collaborators of component.py *)
(* ===================================================================== *)

(** Modelled from the spec: class [Frame] ([frame.py]) is missing from the
    sources. The spec has a frame "expose a shape (depth/channel, height,
    width), a bbox-equivalent region describing its own full extent, and
    optionally a declared numeric element type". A frame is an object:
    [id] is its identity, which [is] compares; no [__eq__] is specified
    for it, so [==] is Python's default, identity. *)
Module Frame.

Record t := Frame {
  id : nat;
  bbox : Box.t;
  dtype : option np.scalar_type
}.

Definition shape (f : t) : Z * Z * Z := Box.shape (bbox f).

Definition is_ (f g : t) : bool := id f =? id g.

Definition __eq__ (f g : t) : bool := is_ f g.

End Frame.

(** Arrays are objects that are mutated in place: a store holds them, and
    a reference is a position in the store. *)
Module Heap.

Definition loc := nat.

(** A store of arrays with elements in [V]. *)
Abbreviation t V := (list (np.ndarray V)) (only parsing).

Section Store.
Context {V : Type} `{np.Elem V}.

(** Computations that read and write the store and may raise. *)
Definition M (A : Type) := t V -> result (A * t V).

Definition ret {A} (a : A) : M A := fun h => Ok (a, h).

Definition bind {A B} (m : M A) (k : A -> M B) : M B :=
  fun h =>
    match m h with
    | Ok (a, h') => k a h'
    | Raise e => Raise e
    end.

Definition lift {A} (r : result A) : M A :=
  fun h => match r with Ok a => Ok (a, h) | Raise e => Raise e end.

(** The array a reference designates; a reference handed out by
    [alloc] always designates one. *)
Definition deref (h : t V) (l : loc) : np.ndarray V :=
  default (np.Array [] [] np.float64) (h !! l).

Definition read (l : loc) : M (np.ndarray V) := fun h => Ok (deref h l, h).

Definition write (l : loc) (a : np.ndarray V) : M unit :=
  fun h => Ok (tt, <[l := a]> h).

Definition alloc (a : np.ndarray V) : M loc :=
  fun h => Ok (length h, h ++ [a]).

End Store.

Global Arguments M V A : clear implicits.

End Heap.

Notation "'let*' x ':=' m 'in' k" := (Heap.bind m (fun x => k))
  (at level 10, x pattern, m at level 100, k at level 200).

(** Modelled from the spec: classes [Parameter] ([parameter.py]),
    [Spectrum] and [Morphology] are missing from the sources. A parameter
    exposes "a name tag used for type-checking at construction" and "a
    current numeric value array usable directly as model content"; a
    spectrum and a morphology each expose "its own bbox" and "a method
    returning its current rendered array". *)
Module Param.
Record t := Param { name : string; value : Heap.loc }.
End Param.

Module Spectrum.
Record t := Spectrum { bbox : Box.t; value : Heap.loc }.
Definition get_model {V} `{np.Elem V} (self : t) : Heap.M V Heap.loc :=
  Heap.ret (value self).
End Spectrum.

Module Morphology.
Record t := Morphology { bbox : Box.t; value : Heap.loc }.
Definition get_model {V} `{np.Elem V} (self : t) : Heap.M V Heap.loc :=
  Heap.ret (value self).
End Morphology.

(* ===================================================================== *)
(** * component.py *)
(* ===================================================================== *)

Module Component.

(** The attributes [Component] sets: [_frame], [_bbox] and the pair of
    cached slices. *)
Record t := Component {
  _frame : Frame.t;
  _bbox : Box.t;
  _model_frame_slices : list np.slice;
  _model_slices : list np.slice
}.

(** The setter of [frame]. *)
Definition set_frame (self : t) (f : Frame.t) : result t :=
  let! (fs, ms) := Box.overlapped_slices (Frame.bbox f) (_bbox self) in
  Ok (Component f (_bbox self) fs ms).

(** The setter of [bbox]. *)
Definition set_bbox (self : t) (b : option Box.t) : result t :=
  let b := default (Frame.bbox (_frame self)) b in
  let! (fs, ms) := Box.overlapped_slices (Frame.bbox (_frame self)) b in
  Ok (Component (_frame self) b fs ms).

(** [Component.__init__(frame, *parameters, children=None, bbox=None)]:
    [_bbox] is stored first, then [frame] is assigned through its
    setter. The two [isinstance] assertions hold by the types of the
    arguments here; [Model.__init__] ([model.py], not in the sources)
    keeps the parameters and children. *)
Definition __init__ (frame : Frame.t) (bbox : option Box.t) : result t :=
  let bbox := default (Frame.bbox frame) bbox in
  let! (fs, ms) := Box.overlapped_slices (Frame.bbox frame) bbox in
  Ok (Component frame bbox fs ms).

Section Project.
Context {V : Type} `{np.Elem V}.

(** The last statements of [model_to_frame], from the choice of the
    element type on: the zero array of the shape of [frame], with the
    slice [model_slices] of the model written into its slice
    [frame_slices]. *)
Definition fill (frame : Frame.t) (frame_slices model_slices : list np.slice)
    (model : np.ndarray V) : result (np.ndarray V) :=
  let dtype :=
    match Frame.dtype frame with
    | Some dtype => dtype
    | None => np.dtype model
    end in
  let! result := np.zeros (Box.tuple (Frame.shape frame)) dtype in
  let! v := np.getitem model (np.Idx <$> model_slices) in
  np.setitem result (np.Idx <$> frame_slices) v.

(** [self.model_to_frame(frame=None, model=None)]; [get_model] is the
    render of the node itself, used when no model is passed. *)
Definition model_to_frame (self : t) (get_model : result (np.ndarray V))
    (frame : option Frame.t) (model : option (np.ndarray V))
  : result (np.ndarray V) :=
  let! model :=
    match model with
    | Some model => Ok model
    | None => get_model
    end in
  let! (frame, frame_slices, model_slices) :=
    match frame with
    | None =>
        Ok (_frame self, _model_frame_slices self, _model_slices self)
    | Some frame =>
        if Frame.__eq__ frame (_frame self)
        then Ok (_frame self, _model_frame_slices self, _model_slices self)
        else
          let! (fs, ms) :=
            Box.overlapped_slices (Frame.bbox frame) (_bbox self) in
          Ok (frame, fs, ms)
    end in
  fill frame frame_slices model_slices model.

End Project.

End Component.

(** The three kinds of node. The sources hold the children and the
    parameters in [Model]; here each kind holds what its [get_model]
    reads. *)
Inductive node :=
| Cube (self : Component.t) (cube : Param.t)
| Factorized (self : Component.t) (spectrum : Spectrum.t)
    (morphology : Morphology.t)
| Combined (self : Component.t) (children : list node) (operation : string).

Definition component (c : node) : Component.t :=
  match c with
  | Cube self _ | Factorized self _ _ | Combined self _ _ => self
  end.

(** An argument that may or may not be a [Component]; an object that is
    not one is taken to have no attribute [frame]. *)
Inductive object :=
| IsComponent (c : node)
| Other.

Module FactorizedComponent.

(** [FactorizedComponent.__init__(frame, spectrum, morphology)] *)
Definition __init__ (frame : Frame.t) (spectrum : Spectrum.t)
    (morphology : Morphology.t) : result node :=
  let! bbox := Box.__matmul__ (Spectrum.bbox spectrum)
                              (Morphology.bbox morphology) in
  let! self := Component.__init__ frame (Some bbox) in
  Ok (Factorized self spectrum morphology).

End FactorizedComponent.

Module CubeComponent.

(** The argument [cube]: a [Parameter] or an array, which is then
    wrapped in a parameter named "cube" over the same array. *)
Inductive cube_arg :=
| OfParameter (p : Param.t)
| OfArray (a : Heap.loc).

(** [CubeComponent.__init__(frame, cube, bbox=None)] *)
Definition __init__ (frame : Frame.t) (cube : cube_arg)
    (bbox : option Box.t) : result node :=
  let! cube :=
    match cube with
    | OfParameter p =>
        assert (String.eqb (Param.name p) "cube") ;;! Ok p
    | OfArray a => Ok (Param.Param "cube" a)
    end in
  let! self := Component.__init__ frame bbox in
  Ok (Cube self cube).

End CubeComponent.

Module CombinedComponent.

Definition frame_of (o : object) : result Frame.t :=
  match o with
  | IsComponent c => Ok (Component._frame (component c))
  | Other => Raise AttributeError
  end.

Definition bbox_of (o : object) : result Box.t :=
  match o with
  | IsComponent c => Ok (Component._bbox (component c))
  | Other => Raise AttributeError
  end.

(** The loop of [__init__] over the components. *)
Fixpoint check (frame : Frame.t) (box : Box.t) (check_boxes : bool)
    (components : list object) : result (list node) :=
  match components with
  | [] => Ok []
  | o :: rest =>
      match o with
      | Other => Raise AssertionError
      | IsComponent c =>
          assert (Frame.is_ (Component._frame (component c)) frame) ;;!
          (if check_boxes
           then assert (Box.__eq__ (Component._bbox (component c)) box)
           else Ok tt) ;;!
          let! cs := check frame box check_boxes rest in
          Ok (c :: cs)
      end
  end.

(** [CombinedComponent.__init__(components, operation="add",
    check_boxes=True)] *)
Definition __init__ (components : list object) (operation : string)
    (check_boxes : bool) : result node :=
  assert (negb (length components =? 0)) ;;!
  match components with
  | [] => Raise IndexError
  | first :: _ =>
      let! frame := frame_of first in
      let! box := bbox_of first in
      let! children := check frame box check_boxes components in
      let! self := Component.__init__ frame (Some box) in
      assert (String.eqb operation "add" || String.eqb operation "multiply") ;;!
      Ok (Combined self children operation)
  end.

End CombinedComponent.

Section Render.
Context {V : Type} `{np.Elem V}.

(** [for model_ in models: model op= model_] on the array [model]
    designates. *)
Fixpoint accumulate (f : V -> V -> V) (model : Heap.loc)
    (models : list Heap.loc) : Heap.M V unit :=
  match models with
  | [] => Heap.ret tt
  | model_ :: rest =>
      let* a := Heap.read model in
      let* b := Heap.read model_ in
      let* r := Heap.lift (np.inplace f a b) in
      let* _ := Heap.write model r in
      accumulate f model rest
  end.

(** The projection of a rendered array, given by reference, into a
    frame: a new array. *)
Definition project (self : Component.t) (frame : option Frame.t)
    (model : Heap.loc) : Heap.M V Heap.loc :=
  match frame with
  | None => Heap.ret model
  | Some frame =>
      let* m := Heap.read model in
      let* r := Heap.lift
        (Component.model_to_frame self (Raise TypeError) (Some frame) (Some m)) in
      Heap.alloc r
  end.

(** Modelled from the spec: [Model.get_parameter] and
    [Model.get_models_of_children] ([model.py]) are missing from the
    sources. The spec has a leaf render by "direct evaluation of its
    parameterization", a parameter expose "a current numeric value
    array usable directly as model content", and a combined node render
    by "recursive render of each child": [get_parameter(0)] is the array
    of the node's first parameter itself, and
    [get_models_of_children(frame=None)] is the list of the renders of
    the children, in order, each obtained by [render]. The calls are
    the ones without explicit optimisation parameters. *)
Definition get_parameter (parameters : list Param.t) (i : nat)
  : Heap.M V Heap.loc :=
  match parameters !! i with
  | Some p => Heap.ret (Param.value p)
  | None => Heap.lift (Raise IndexError)
  end.

Definition get_models_of_children_with {A}
    (render : A -> Heap.M V Heap.loc)
  : list A -> Heap.M V (list Heap.loc) :=
  fix go (children : list A) : Heap.M V (list Heap.loc) :=
    match children with
    | [] => Heap.ret []
    | c :: rest =>
        let* m := render c in
        let* ms := go rest in
        Heap.ret (m :: ms)
    end.

(** The fold of [CombinedComponent.get_model] over the renders of the
    children. *)
Definition combine (operation : string) (models : list Heap.loc)
  : Heap.M V Heap.loc :=
  match models with
  | [] => Heap.lift (Raise IndexError)
  | model :: rest =>
      let* _ :=
        if String.eqb operation "add" then accumulate np.add model rest
        else if String.eqb operation "multiply"
             then accumulate np.mul model rest
             else Heap.ret tt in
      Heap.ret model
  end.

(** [get_model(frame=frame)] of the three kinds of node. *)
Fixpoint get_model (c : node) (frame : option Frame.t) {struct c}
  : Heap.M V Heap.loc :=
  match c with
  | Cube self cube =>
      let* model := get_parameter [cube] 0 in
      project self frame model
  | Factorized self spectrum morphology =>
      let* spectrum := Spectrum.get_model spectrum in
      let* morphology := Morphology.get_model morphology in
      let* s := Heap.read spectrum in
      let* m := Heap.read morphology in
      let full := np.Idx (np.Slice None None) in
      let* s' := Heap.lift (np.getitem s [full; np.newaxis; np.newaxis]) in
      let* m' := Heap.lift (np.getitem m [np.newaxis; full; full]) in
      let* r := Heap.lift (np.binary np.mul s' m') in
      let* model := Heap.alloc r in
      project self frame model
  | Combined self children operation =>
      let* models :=
        get_models_of_children_with (fun c => get_model c None) children in
      let* model := combine operation models in
      project self frame model
  end.

Definition get_models_of_children (children : list node)
  : Heap.M V (list Heap.loc) :=
  get_models_of_children_with (fun c => get_model c None) children.

End Render.

(* ===================================================================== *)
(** * Vocabulary of the statements *)
(* ===================================================================== *)

(** Integers as elements, for the worked examples. *)
Global Instance Z_Elem : np.Elem Z :=
  {| np.zero := 0%Z; np.add := Z.add; np.mul := Z.mul |}.

(** The bounds [__and__] hands to [from_bounds] on one axis, after
    [from_bounds] has put them in order: [la, ha) and [lb, hb) are the
    two intervals. *)
Definition meet_lo (la ha lb hb : Z) : Z := Z.min (Z.max la lb) (Z.min ha hb).
Definition meet_hi (la ha lb hb : Z) : Z := Z.max (Z.max la lb) (Z.min ha hb).

(** The upper bound as [Box.back] reads it off the box [__and__]
    returns: origin plus shape. *)
Definition meet_back (la ha lb hb : Z) : Z :=
  (meet_lo la ha lb hb + (meet_hi la ha lb hb - meet_lo la ha lb hb))%Z.

(** The box [__and__] returns. *)
Definition meet (a b : Box.t) : Box.t :=
  let z0 := meet_lo (Box.front a) (Box.back a) (Box.front b) (Box.back b) in
  let z1 := meet_hi (Box.front a) (Box.back a) (Box.front b) (Box.back b) in
  let y0 := meet_lo (Box.bottom a) (Box.top a) (Box.bottom b) (Box.top b) in
  let y1 := meet_hi (Box.bottom a) (Box.top a) (Box.bottom b) (Box.top b) in
  let x0 := meet_lo (Box.left a) (Box.right a) (Box.left b) (Box.right b) in
  let x1 := meet_hi (Box.left a) (Box.right a) (Box.left b) (Box.right b) in
  Box.Box (z1 - z0, y1 - y0, x1 - x0)%Z (z0, y0, x0).

(** A region in the sense of the data model: no negative extent. *)
Definition nonneg (b : Box.t) : Prop :=
  (0 <= Box.C b /\ 0 <= Box.Ny b /\ 0 <= Box.Nx b)%Z.

(** A region has no point: some extent is zero. *)
Definition is_empty (b : Box.t) : bool :=
  (Box.C b =? 0)%Z || (Box.Ny b =? 0)%Z || (Box.Nx b =? 0)%Z.

(** The two boxes of the failing input of the intersection. *)
Definition boxA : Box.t := Box.Box (1, 2, 2)%Z (0, 0, 0)%Z.
Definition boxB : Box.t := Box.Box (1, 2, 2)%Z (0, 5, 5)%Z.

(** The axes of a box that an array of [nd] dimensions has: all three for
    a 3-D array, height and width for a 2-D one. *)
Definition dims (b : Box.t) (nd : nat) : list Z :=
  drop (3 - nd) (Box.tuple (Box.shape b)).
Definition offsets (b : Box.t) (nd : nat) : list Z :=
  drop (3 - nd) (Box.tuple (Box.origin b)).

(** The position [idx + off]. *)
Definition shift (idx : list nat) (off : list Z) : list Z :=
  zip_with Z.add (Z.of_nat <$> idx) off.
Definition unshift (idx : list nat) (off : list Z) : list Z :=
  zip_with Z.sub (Z.of_nat <$> idx) off.

(** The element of an array at a position given by integers, if the
    position lies in the extent of the array (no counting from the end). *)
Definition pixel {V} `{np.Elem V} (a : np.ndarray V) (p : list Z) : option V :=
  if forallb (fun k => 0 <=? k)%Z p then np.item a (Z.to_nat <$> p) else None.

(** A position lies in the extent of an array of shape [sh]. *)
Fixpoint inZ (sh : list nat) (p : list Z) : bool :=
  match sh, p with
  | [], [] => true
  | n :: sh', k :: p' => (0 <=? k)%Z && (k <? Z.of_nat n)%Z && inZ sh' p'
  | _, _ => false
  end.

(** The position [p] lies in the half-open footprint of a box, on the
    axes given by their origins and extents. *)
Fixpoint within (p off ext : list Z) : bool :=
  match p, off, ext with
  | k :: p', o :: off', s :: ext' =>
      (o <=? k)%Z && (k <? o + s)%Z && within p' off' ext'
  | [], [], [] => true
  | _, _, _ => false
  end.

Definition inside (b : Box.t) (idx : list nat) : bool :=
  within (Z.of_nat <$> idx) (offsets b (length idx)) (dims b (length idx)).

(** A box and the extent of an array share no point: on some axis of the
    array the interval of the box and [0, n) do not meet. *)
Fixpoint apart (off ext : list Z) (sh : list nat) : bool :=
  match off, ext, sh with
  | o :: off', s :: ext', n :: sh' =>
      (Z.min (o + s) (Z.of_nat n) <=? Z.max o 0)%Z || apart off' ext' sh'
  | _, _, _ => false
  end.

Definition outside {V} `{np.Elem V} (b : Box.t) (a : np.ndarray V) : bool :=
  apart (offsets b (np.ndim a)) (dims b (np.ndim a)) (np.shape a).

(** The origin of the box [f] seen from the origin of the box [b]. *)
Definition relative (f b : Box.t) : list Z :=
  zip_with Z.sub (Box.tuple (Box.origin f)) (Box.tuple (Box.origin b)).

(** The cached pair of slices of a component is the pair
    [overlapped_slices] computes for its frame and its box, as the two
    setters leave it. *)
Definition cache_ok (self : Component.t) : Prop :=
  Box.overlapped_slices (Frame.bbox (Component._frame self))
                        (Component._bbox self)
  = Ok (Component._model_frame_slices self, Component._model_slices self).

(** A range [(first, count)] covers an index. *)
Definition covers (r : nat * nat) (k : nat) : bool :=
  (r.1 <=? k) && (k <? r.1 + r.2).

(** Two ranges of one count, [d] in an axis of length [m] and [s] in an
    axis of length [n]: [d] covers exactly the indices [k] with [k + o]
    in the other axis, and the element paired with [k] is [k + o]. *)
Definition aligned (o : Z) (m n : nat) (d s : nat * nat) : Prop :=
  d.2 = s.2
  /\ forall k : nat, k < m ->
       (covers d k = true <-> (0 <= Z.of_nat k + o < Z.of_nat n)%Z)
       /\ (covers d k = true -> Z.of_nat (s.1 + (k - d.1)) = (Z.of_nat k + o)%Z).

(** The frame and the box of a node. *)
Definition frame_of_node (c : node) : Frame.t := Component._frame (component c).
Definition bbox_of_node (c : node) : Box.t := Component._bbox (component c).

(** The three ways a construction of a combined node is said to fail: a
    child with another frame than the first child, a child with another
    box when boxes are checked, an operation that is neither tag. *)
Definition claimed_failure (components : list object) (operation : string)
    (check_boxes : bool) : Prop :=
  (exists c0 c, head components = Some (IsComponent c0)
      /\ IsComponent c ∈ components
      /\ Frame.is_ (frame_of_node c) (frame_of_node c0) = false)
  \/ (check_boxes = true
      /\ exists c0 c, head components = Some (IsComponent c0)
           /\ IsComponent c ∈ components
           /\ Box.__eq__ (bbox_of_node c) (bbox_of_node c0) = false)
  \/ (operation <> "add" /\ operation <> "multiply").

(** The operation a tag stands for. *)
Definition operation_of {V} `{np.Elem V} (operation : string) : V -> V -> V :=
  if String.eqb operation "add" then np.add else np.mul.

(** The loop of [CombinedComponent.__init__] accepts a component. *)
Definition child_ok (frame : Frame.t) (box : Box.t) (check_boxes : bool)
    (o : object) : bool :=
  match o with
  | Other => false
  | IsComponent c =>
      Frame.is_ (frame_of_node c) frame
      && (negb check_boxes || Box.__eq__ (bbox_of_node c) box)
  end.

(** The components among the objects of a list. *)
Fixpoint components_of (l : list object) : list node :=
  match l with
  | [] => []
  | IsComponent c :: l' => c :: components_of l'
  | Other :: l' => components_of l'
  end.

(** ** Worked examples (arrays of integers) *)

(** A frame of shape (1,3,3), a larger one of shape (1,4,4), and a box of
    shape (1,2,2) at origin (0,1,1). *)
Definition frame0 : Frame.t :=
  Frame.Frame 0 (Box.Box (1, 3, 3)%Z (0, 0, 0)%Z) None.
Definition frame1 : Frame.t :=
  Frame.Frame 1 (Box.Box (1, 4, 4)%Z (0, 0, 0)%Z) (Some np.float32).
Definition box0 : Box.t := Box.Box (1, 2, 2)%Z (0, 1, 1)%Z.
Definition box1 : Box.t := Box.Box (1, 3, 3)%Z (0, 0, 0)%Z.

(** Two cubes of shape (1,2,2) and one of shape (1,3,3), as the arrays
    of a store. *)
Definition cube0 : np.ndarray Z := np.Array [1; 2; 2] [1; 2; 3; 4]%Z np.float64.
Definition cube1 : np.ndarray Z :=
  np.Array [1; 2; 2] [10; 20; 30; 40]%Z np.float64.
Definition cube2 : np.ndarray Z :=
  np.Array [1; 3; 3] [1; 1; 1; 1; 1; 1; 1; 1; 1]%Z np.float64.
Definition store0 : Heap.t Z := [cube0; cube1; cube2].

(** The component [Component.__init__] builds for [frame0] and [box0]. *)
Definition comp0 : Component.t :=
  Component.Component frame0 box0
    [np.Slice (Some 0%Z) (Some 1%Z); np.Slice (Some 1%Z) (Some 3%Z);
     np.Slice (Some 1%Z) (Some 3%Z)]
    [np.Slice (Some 0%Z) (Some 1%Z); np.Slice (Some 0%Z) (Some 2%Z);
     np.Slice (Some 0%Z) (Some 2%Z)].

(** [CombinedComponent([CubeComponent(frame0, cube0, box0),
    CubeComponent(frame0, cube1, box0)])] *)
Definition sum_of_cubes : result node :=
  let! c0 := CubeComponent.__init__ frame0 (CubeComponent.OfArray 0) (Some box0) in
  let! c1 := CubeComponent.__init__ frame0 (CubeComponent.OfArray 1) (Some box0) in
  CombinedComponent.__init__ [IsComponent c0; IsComponent c1] "add" true.

(** The same with a second child of another box and shape, boxes not
    checked. *)
Definition sum_of_unlike_cubes : result node :=
  let! c0 := CubeComponent.__init__ frame0 (CubeComponent.OfArray 0) (Some box0) in
  let! c2 := CubeComponent.__init__ frame0 (CubeComponent.OfArray 2) (Some box1) in
  CombinedComponent.__init__ [IsComponent c0; IsComponent c2] "add" false.

(** A region, a source and a target for the transfers. *)
Definition region0 : Box.t := Box.Box (1, 1, 2)%Z (0, 0, 0)%Z.
Definition source0 : np.ndarray Z := np.Array [1; 1] [5]%Z np.int64.
Definition target0 : np.ndarray Z := np.Array [1; 2] [7; 7]%Z np.int64.
Definition region1 : Box.t := Box.Box (2, 2, 2)%Z (0, -1, 1)%Z.
Definition source1 : np.ndarray Z :=
  np.Array [2; 2; 2] [1; 2; 3; 4; 5; 6; 7; 8]%Z np.int64.

(** ** Vocabulary of the further properties *)

(** The point [contains] reads: a point of two coordinates is given the
    depth 0. *)
Definition promoted (p : list Z) : list Z :=
  if length p =? 2 then 0%Z :: p else p.

(** The three inclusive tests of [contains]. *)
Definition between (b : Box.t) (z y x : Z) : Prop :=
  (Box.front b <= z <= Box.back b /\ Box.bottom b <= y <= Box.top b
   /\ Box.left b <= x <= Box.right b)%Z.

(** Two boxes meet on every axis: no gap separates them. *)
Definition meeting (a b : Box.t) : Prop :=
  (Z.max (Box.front a) (Box.front b) <= Z.min (Box.back a) (Box.back b)
   /\ Z.max (Box.bottom a) (Box.bottom b) <= Z.min (Box.top a) (Box.top b)
   /\ Z.max (Box.left a) (Box.left b) <= Z.min (Box.right a) (Box.right b))%Z.

(** A position of three coordinates lies in the half-open footprint of a
    box. *)
Definition in_box (b : Box.t) (p : list Z) : bool :=
  within p (Box.tuple (Box.origin b)) (Box.tuple (Box.shape b)).

(** The footprint of a box lies in the extent of an array, on the axes
    the array has. *)
Fixpoint fits_in (off ext : list Z) (sh : list nat) : bool :=
  match off, ext, sh with
  | o :: off', s :: ext', n :: sh' =>
      (0 <=? o)%Z && (o + s <=? Z.of_nat n)%Z && fits_in off' ext' sh'
  | [], [], [] => true
  | _, _, _ => false
  end.

Definition fits {V} `{np.Elem V} (b : Box.t) (a : np.ndarray V) : bool :=
  fits_in (offsets b (np.ndim a)) (dims b (np.ndim a)) (np.shape a).

(** The index in the view [slices_for] cuts out of an array of the
    element at [idx] of the array: [idx] counted from the origin of the
    box, or from 0 where the origin is negative. *)
Definition from_origin (b : Box.t) (idx : list nat) : list nat :=
  zip_with (fun i o => i - Z.to_nat o) idx (offsets b (length idx)).

(** An element of [X] above the threshold [v], at a valid index. *)
Definition above {V} `{np.Ord V} (X : np.ndarray V) (v : V) (idx : list nat)
  : Prop :=
  np.inb (np.shape X) idx = true
  /\ exists e, np.item X idx = Some e /\ np.gt e v = true.

(** ** Further worked examples *)

(** Integers compared as Python compares them. *)
Global Instance Z_Ord : np.Ord Z := {| np.gt := Z.gtb |}.

(** An array of one axis, a region of one element at column 1, and a
    store that holds a spectrum of two channels and an image of one row. *)
Definition line0 : np.ndarray Z := np.Array [2] [2; 3]%Z np.int64.
Definition region2 : Box.t := Box.Box (1, 1, 1)%Z (0, 0, 1)%Z.
Definition store1 : Heap.t Z := [line0; target0].
Definition spectrum0 : Spectrum.t := Spectrum.Spectrum box0 0.
Definition morphology0 : Morphology.t := Morphology.Morphology box0 1.

(* ===================================================================== *)
(** * Properties *)
(* ===================================================================== *)

(** ** Row-major indexing *)

Lemma inb_Forall2 sh idx :
  np.inb sh idx = true <-> Forall2 (fun d i => i < d) sh idx.
Proof.
  revert idx; induction sh as [|d sh IH]; intros [|i idx]; simpl;
    try (split; [discriminate | inversion 1]).
  - split; [constructor | reflexivity].
  - rewrite andb_true_iff, Nat.ltb_lt, IH. split.
    + intros [? ?]; constructor; assumption.
    + inversion 1; subst; split; assumption.
Qed.

Lemma inb_length sh idx : np.inb sh idx = true -> length idx = length sh.
Proof.
  rewrite inb_Forall2. intros Hf. symmetry. eapply Forall2_length, Hf.
Qed.

Lemma ravel_lt sh idx : np.inb sh idx = true -> np.ravel sh idx < np.size sh.
Proof.
  revert idx; induction sh as [|d sh IH]; intros [|i idx]; simpl;
    try discriminate.
  - lia.
  - rewrite andb_true_iff, Nat.ltb_lt. intros [Hi Hr].
    specialize (IH _ Hr). nia.
Qed.

Lemma unravel_ravel sh idx :
  np.inb sh idx = true -> np.unravel sh (np.ravel sh idx) = idx.
Proof.
  revert idx; induction sh as [|d sh IH]; intros [|i idx]; simpl;
    try discriminate; [reflexivity|].
  rewrite andb_true_iff, Nat.ltb_lt. intros [Hi Hr].
  pose proof (ravel_lt _ _ Hr) as Hlt.
  assert (Hq : (i * np.size sh + np.ravel sh idx) / np.size sh = i).
  { symmetry. apply (Nat.div_unique _ _ _ (np.ravel sh idx)); lia. }
  assert (Hm : (i * np.size sh + np.ravel sh idx) mod np.size sh
               = np.ravel sh idx).
  { symmetry. apply (Nat.mod_unique _ _ i); lia. }
  rewrite Hq, Hm, IH by assumption. reflexivity.
Qed.

Lemma inb_unravel sh k : k < np.size sh -> np.inb sh (np.unravel sh k) = true.
Proof.
  revert k; induction sh as [|d sh IH]; intros k Hk; simpl in *;
    [reflexivity|].
  assert (Hpos : np.size sh <> 0) by (intros E; rewrite E in Hk; lia).
  rewrite andb_true_iff, Nat.ltb_lt. split.
  - apply Nat.Div0.div_lt_upper_bound. lia.
  - apply IH. apply Nat.mod_upper_bound. assumption.
Qed.

Lemma ravel_unravel sh k :
  k < np.size sh -> np.ravel sh (np.unravel sh k) = k.
Proof.
  revert k; induction sh as [|d sh IH]; intros k Hk; simpl in *; [lia|].
  assert (Hpos : np.size sh <> 0) by (intros E; rewrite E in Hk; lia).
  rewrite IH by (apply Nat.mod_upper_bound; assumption).
  pose proof (Nat.div_mod_eq k (np.size sh)). lia.
Qed.

(** ** Arrays *)

Section ArrayFacts.
Context {V : Type} `{np.Elem V}.
Implicit Types (a b : np.ndarray V) (sh idx : list nat).

Lemma length_tabulate sh (f : list nat -> V) :
  length (np.tabulate sh f) = np.size sh.
Proof. unfold np.tabulate. rewrite length_fmap, length_seq. reflexivity. Qed.

Lemma item_tabulate sh (f : list nat -> V) dt idx :
  np.item (np.Array sh (np.tabulate sh f) dt) idx
  = if np.inb sh idx then Some (f idx) else None.
Proof.
  unfold np.item; simpl. destruct (np.inb sh idx) eqn:Hin; [|reflexivity].
  unfold np.tabulate. rewrite list_lookup_fmap.
  rewrite lookup_seq_lt by (apply ravel_lt; assumption). simpl.
  rewrite unravel_ravel by assumption. reflexivity.
Qed.

Lemma get_tabulate sh (f : list nat -> V) dt idx :
  np.inb sh idx = true ->
  np.get (np.Array sh (np.tabulate sh f) dt) idx = f idx.
Proof. intros Hin. unfold np.get. rewrite item_tabulate, Hin. reflexivity. Qed.

Lemma tabulate_ext sh (f g : list nat -> V) :
  (forall idx, np.inb sh idx = true -> f idx = g idx) ->
  np.tabulate sh f = np.tabulate sh g.
Proof.
  intros Hfg. unfold np.tabulate. apply list_eq; intros k.
  rewrite !list_lookup_fmap.
  destruct (decide (k < np.size sh)) as [Hk|Hk].
  - rewrite lookup_seq_lt by assumption. simpl. f_equal.
    apply Hfg, inb_unravel. assumption.
  - rewrite lookup_seq_ge by lia. reflexivity.
Qed.

Lemma tabulate_const sh (v : V) :
  np.tabulate sh (fun _ => v) = replicate (np.size sh) v.
Proof.
  unfold np.tabulate. apply list_eq; intros k.
  rewrite list_lookup_fmap.
  destruct (decide (k < np.size sh)) as [Hk|Hk].
  - rewrite lookup_seq_lt, lookup_replicate_2 by assumption. reflexivity.
  - rewrite lookup_seq_ge by lia.
    symmetry. apply lookup_replicate_None. lia.
Qed.

(** A well-formed array is the table of its own elements. *)
Lemma tabulate_get a :
  np.wf a = true -> np.tabulate (np.shape a) (np.get a) = np.buf a.
Proof.
  intros Hwf. apply Nat.eqb_eq in Hwf. apply list_eq; intros k.
  unfold np.tabulate. rewrite list_lookup_fmap.
  destruct (decide (k < np.size (np.shape a))) as [Hk|Hk].
  - rewrite lookup_seq_lt by assumption. simpl.
    unfold np.get, np.item. rewrite inb_unravel, ravel_unravel by assumption.
    destruct (np.buf a !! k) eqn:E; [reflexivity|].
    apply lookup_ge_None in E. lia.
  - rewrite lookup_seq_ge by lia.
    symmetry. apply lookup_ge_None. lia.
Qed.

(** Two well-formed arrays of one shape and element type with the same
    elements are the same array. *)
Lemma array_ext a b :
  np.wf a = true -> np.wf b = true ->
  np.shape a = np.shape b -> np.dtype a = np.dtype b ->
  (forall idx, np.inb (np.shape a) idx = true -> np.item a idx = np.item b idx) ->
  a = b.
Proof.
  intros Ha Hb Hsh Hdt Hit.
  pose proof (tabulate_get a Ha) as Ea. pose proof (tabulate_get b Hb) as Eb.
  destruct a as [sa ba da], b as [sb bb db]; simpl in *. subst sb db.
  f_equal. rewrite <- Ea, <- Eb. apply tabulate_ext. intros idx Hin.
  unfold np.get. rewrite (Hit idx Hin). reflexivity.
Qed.

Lemma zeros_ok (sh : list Z) dt :
  Forall (fun d => 0 <= d)%Z sh ->
  np.zeros sh dt
  = Ok (np.Array (Z.to_nat <$> sh)
          (replicate (np.size (Z.to_nat <$> sh)) np.zero) dt).
Proof.
  intros Hsh. unfold np.zeros.
  replace (forallb _ sh) with true; [reflexivity|].
  symmetry. apply forallb_forall. intros d Hd.
  rewrite Forall_forall in Hsh. apply Z.leb_le, Hsh.
  apply list_elem_of_In. assumption.
Qed.

Lemma item_zeros sh dt idx :
  np.item (np.Array sh (replicate (np.size sh) np.zero) dt) idx
  = if np.inb sh idx then Some np.zero else None.
Proof. rewrite <- tabulate_const. apply item_tabulate. Qed.

Lemma wf_zeros sh dt :
  np.wf (np.Array sh (replicate (np.size sh) (np.zero : V)) dt) = true.
Proof. unfold np.wf; simpl. rewrite length_replicate. apply Nat.eqb_refl. Qed.

Lemma wf_tabulate sh (f : list nat -> V) dt :
  np.wf (np.Array sh (np.tabulate sh f) dt) = true.
Proof. unfold np.wf; simpl. rewrite length_tabulate. apply Nat.eqb_refl. Qed.

(** Broadcasting an array to its own shape changes no index. *)
Lemma bc_ok_refl strip l : np.bc_ok strip l l = true.
Proof.
  induction l as [|d l IH]; simpl; [reflexivity|].
  rewrite Nat.eqb_refl, IH. reflexivity.
Qed.

Lemma broadcastable_refl strip sh : np.broadcastable strip sh sh = true.
Proof. apply bc_ok_refl. Qed.

Lemma bc_idx_id l idx :
  Forall2 (fun d i => i < d) l idx -> np.bc_idx l idx = idx.
Proof.
  induction 1 as [|d i l idx Hi _ IH]; simpl; [reflexivity|].
  rewrite IH. destruct (Nat.eqb_spec d 1); [f_equal; lia | reflexivity].
Qed.

Lemma bsource_id sh idx : np.inb sh idx = true -> np.bsource sh idx = idx.
Proof.
  rewrite inb_Forall2. intros Hf. unfold np.bsource.
  rewrite bc_idx_id, reverse_involutive; [reflexivity|].
  apply Forall2_reverse. assumption.
Qed.

(** The index [locate] finds lies in the view, and [source] undoes it
    on views made of ranges. *)
Lemma locate_inb axes idx j :
  np.locate axes idx = Some j -> np.inb (np.view_shape axes) j = true.
Proof.
  revert idx j; induction axes as [|[a n|] axes IH]; intros idx j; simpl.
  - destruct idx; [|discriminate]. intros [= <-]. reflexivity.
  - destruct idx as [|i idx]; [discriminate|].
    destruct ((a <=? i) && (i <? a + n)) eqn:E; [|discriminate].
    destruct (np.locate axes idx) as [j'|] eqn:E'; [|discriminate].
    intros [= <-]. simpl. rewrite (IH _ _ E'), andb_true_r.
    apply andb_true_iff in E as [E1 E2].
    apply Nat.leb_le in E1. apply Nat.ltb_lt in E2. apply Nat.ltb_lt. lia.
  - destruct (np.locate axes idx) as [j'|] eqn:E'; [|discriminate].
    intros [= <-]. simpl. apply (IH _ _ E').
Qed.

(** ** Copying a view of one array into a view of another

    The statement the two transfer methods of [Box] rest on: when the
    two index tuples resolve to views of one shape, the assignment
    succeeds, and an element of the result comes from the source where
    the destination view covers it and is unchanged elsewhere. *)
Lemma transfer a b ixd ixs axd axs :
  np.resolve (np.shape a) ixd = Ok axd ->
  np.resolve (np.shape b) ixs = Ok axs ->
  np.view_shape axd = np.view_shape axs ->
  exists r,
    (let! v := np.getitem b ixs in np.setitem a ixd v) = Ok r
    /\ np.shape r = np.shape a /\ np.dtype r = np.dtype a
    /\ np.wf r = true
    /\ forall idx, np.inb (np.shape a) idx = true ->
         np.item r idx
         = Some (match np.locate axd idx with
                 | Some j => np.get b (np.source axs j)
                 | None => np.get a idx
                 end).
Proof.
  intros Hd Hs Hsh. unfold np.getitem, np.setitem. rewrite Hs; simpl.
  rewrite Hd; simpl. rewrite Hsh, broadcastable_refl.
  eexists; split; [reflexivity|]. simpl.
  split; [reflexivity|]. split; [reflexivity|].
  split; [apply wf_tabulate|].
  intros idx Hin. rewrite item_tabulate, Hin. f_equal.
  destruct (np.locate axd idx) as [j|] eqn:E; [|reflexivity].
  apply locate_inb in E. rewrite Hsh in E.
  rewrite bsource_id by assumption.
  apply (get_tabulate _ (fun i => np.get b (np.source axs i))). assumption.
Qed.

End ArrayFacts.

(** ** Box: construction and algebra *)

Lemma init_triples s0 s1 s2 o0 o1 o2 :
  Box.__init__ [s0; s1; s2] [o0; o1; o2] = Ok (Box.Box (s0, s1, s2) (o0, o1, o2)).
Proof. reflexivity. Qed.

Lemma from_bounds_closed f b bo t l r :
  Box.from_bounds f b bo t l r
  = Ok (Box.Box (Z.max f b - Z.min f b, Z.max bo t - Z.min bo t,
                 Z.max l r - Z.min l r)%Z
                (Z.min f b, Z.min bo t, Z.min l r)).
Proof.
  unfold Box.from_bounds.
  destruct (Z.ltb_spec b f), (Z.ltb_spec t bo), (Z.ltb_spec r l);
    rewrite init_triples; do 2 f_equal;
    repeat (apply (f_equal2 pair)); lia.
Qed.

Lemma and_closed a b : Box.__and__ a b = Ok (meet a b).
Proof. unfold Box.__and__. rewrite from_bounds_closed. reflexivity. Qed.

Lemma overlapped_slices_closed a b :
  Box.overlapped_slices a b
  = Ok (Box.ranges (Box.__isub__ (meet a b) (Box.origin a)),
        Box.ranges (Box.__isub__ (meet a b) (Box.origin b))).
Proof. unfold Box.overlapped_slices. rewrite and_closed. reflexivity. Qed.

Lemma component_init_closed frame bbox :
  Component.__init__ frame bbox
  = let b := default (Frame.bbox frame) bbox in
    Ok (Component.Component frame b
          (Box.ranges (Box.__isub__ (meet (Frame.bbox frame) b)
                                    (Box.origin (Frame.bbox frame))))
          (Box.ranges (Box.__isub__ (meet (Frame.bbox frame) b)
                                    (Box.origin b)))).
Proof.
  unfold Component.__init__. rewrite overlapped_slices_closed. reflexivity.
Qed.

(** When a gap separates two boxes on an axis, the box [__and__] returns
    spans the gap on that axis. *)
Lemma meet_gap la ha lb hb :
  (ha < lb)%Z -> (la <= ha)%Z -> (lb <= hb)%Z ->
  meet_lo la ha lb hb = ha /\ meet_hi la ha lb hb = lb.
Proof. unfold meet_lo, meet_hi. lia. Qed.

(** C1. On the boxes A = shape (1,2,2) at origin (0,0,0) and B = shape
    (1,2,2) at origin (0,5,5), which share no point on the y and x axes,
    [A & B] is not the empty box the docstring of [__and__] promises: it
    is the box of shape (1,3,3) at origin (0,2,2), which spans the gap
    between the two and has no zero extent. *)
Theorem and_disjoint_spans_gap :
  Box.__and__ boxA boxB = Ok (Box.Box (1, 3, 3)%Z (0, 2, 2)%Z)
  /\ is_empty (Box.Box (1, 3, 3)%Z (0, 2, 2)%Z) = false.
Proof. split; reflexivity. Qed.

(** C9. [from_bounds] returns a box for all integer bounds: its origin is
    the smaller bound of each pair and its shape the difference of the
    larger and the smaller, so a pair given in either order yields the
    same box. *)
Theorem from_bounds_normalizes (front back bottom top left right : Z) :
  Box.from_bounds front back bottom top left right
  = Ok (Box.Box (Z.max front back - Z.min front back,
                 Z.max bottom top - Z.min bottom top,
                 Z.max left right - Z.min left right)%Z
                (Z.min front back, Z.min bottom top, Z.min left right))
  /\ Box.from_bounds back front bottom top left right
     = Box.from_bounds front back bottom top left right
  /\ Box.from_bounds front back top bottom left right
     = Box.from_bounds front back bottom top left right
  /\ Box.from_bounds front back bottom top right left
     = Box.from_bounds front back bottom top left right.
Proof.
  rewrite !from_bounds_closed.
  repeat split; do 2 f_equal; repeat (apply (f_equal2 pair)); lia.
Qed.

(** C7. [contains] answers for every point of three coordinates, and its
    answer is true exactly when every coordinate lies between the origin
    and the origin plus the shape, both included; a point of two
    coordinates is the point with depth 0. The corner [origin + shape],
    which no half-open range [origin, origin + shape) holds, is contained
    whenever the shape is not negative. *)
Theorem contains_inclusive (b : Box.t) (z y x : Z) :
  Box.contains b [z; y; x]
  = Ok (bool_decide ((Box.front b <= z <= Box.front b + Box.C b)
                     /\ (Box.bottom b <= y <= Box.bottom b + Box.Ny b)
                     /\ (Box.left b <= x <= Box.left b + Box.Nx b))%Z)
  /\ Box.contains b [y; x] = Box.contains b [0%Z; y; x]
  /\ Box.contains b [Box.back b; Box.top b; Box.right b]
     = Ok (bool_decide (0 <= Box.C b /\ 0 <= Box.Ny b /\ 0 <= Box.Nx b)%Z).
Proof.
  destruct b as [[[s0 s1] s2] [[o0 o1] o2]].
  unfold Box.contains, Box.front, Box.bottom, Box.left, Box.back, Box.top,
    Box.right, Box.C, Box.Ny, Box.Nx; simpl.
  repeat split.
  - destruct (Z.ltb_spec z o0), (Z.gtb_spec z (o0 + s0)%Z),
      (Z.ltb_spec y o1), (Z.gtb_spec y (o1 + s1)%Z),
      (Z.ltb_spec x o2), (Z.gtb_spec x (o2 + s2)%Z); simpl;
      f_equal; symmetry;
      first [ apply bool_decide_eq_true; lia
            | apply bool_decide_eq_false; lia ].
  - destruct (Z.ltb_spec (o0 + s0) o0), (Z.gtb_spec (o0 + s0) (o0 + s0)%Z),
      (Z.ltb_spec (o1 + s1) o1), (Z.gtb_spec (o1 + s1) (o1 + s1)%Z),
      (Z.ltb_spec (o2 + s2) o2), (Z.gtb_spec (o2 + s2) (o2 + s2)%Z); simpl;
      f_equal; symmetry;
      first [ apply bool_decide_eq_true; lia
            | apply bool_decide_eq_false; lia ].
Qed.

(** C10. [__copy__] returns no box: reading [self.offset] raises
    [AttributeError] for every box, so the call is never reached; and the
    call it would make, [Box] with a keyword [offset], raises [TypeError]
    whatever the other arguments are. *)
Theorem copy_raises (b : Box.t) :
  Box.__copy__ b = Raise AttributeError
  /\ Box.getattr b "offset" = Raise AttributeError
  /\ (forall args v kwargs,
        Box.call args (("offset", v) :: kwargs) = Raise TypeError).
Proof. repeat split. Qed.


(** ** One axis of a transfer

    What the bounds the two transfer methods compute amount to, axis by
    axis, once [slice.indices] has clipped them. *)

Ltac split_ltb :=
  repeat match goal with
    | |- context [(?a <? ?b)%Z] => destruct (Z.ltb_spec a b)
    end.

Ltac forget_adjust :=
  repeat match goal with
    | H : context [np.adjust ?a ?b] |- _ =>
        generalize dependent (np.adjust a b); intros
    end.

Lemma covers_spec r k : covers r k = true <-> r.1 <= k < r.1 + r.2.
Proof.
  unfold covers. rewrite andb_true_iff, Nat.leb_le, Nat.ltb_lt. reflexivity.
Qed.

Lemma indices_slice_of lo hi n :
  np.indices (Box.slice_of lo hi) n
  = (Z.to_nat (np.adjust (Z.of_nat n) lo),
     Z.to_nat (np.adjust (Z.of_nat n) hi - np.adjust (Z.of_nat n) lo)).
Proof. reflexivity. Qed.

Section Axis.
Local Open Scope Z_scope.

(** [from_bounds] keeps the pair as it is when the intervals meet and
    swaps it when they do not. *)
Lemma meet_cases la ha lb hb :
  (Z.max la lb <= Z.min ha hb
   /\ meet_lo la ha lb hb = Z.max la lb /\ meet_hi la ha lb hb = Z.min ha hb)
  \/ (Z.min ha hb < Z.max la lb
      /\ meet_lo la ha lb hb = Z.min ha hb
      /\ meet_hi la ha lb hb = Z.max la lb).
Proof. unfold meet_lo, meet_hi. lia. Qed.

(** An interval [l, h) met with the extent [0, n) of an axis, then
    clipped by [slice.indices]: the swapped pair of two intervals that
    do not meet is clipped to no index at all. *)
Lemma clip (l h n : Z) :
  l <= h -> 0 <= n ->
  let lo := meet_lo l h 0 n in
  let hi := meet_hi l h 0 n in
  Z.max 0 (np.adjust n hi - np.adjust n lo) = Z.max 0 (Z.min h n - Z.max l 0)
  /\ (0 < np.adjust n hi - np.adjust n lo -> np.adjust n lo = Z.max l 0)
  /\ 0 <= np.adjust n lo.
Proof.
  intros Hlh Hn lo hi. subst lo hi. unfold np.adjust, meet_lo, meet_hi.
  split_ltb; lia.
Qed.

(** The extent of an image seen from the origin [o] of a box, met with
    the extent [0, m) of the buffer, then once more with it by
    [slices_for]. *)
Lemma clip_array_in_box (o m n : Z) :
  0 <= m -> 0 <= n ->
  let lo1 := meet_lo (0 - o) (0 - o + n) 0 m in
  let hi1 := meet_hi (0 - o) (0 - o + n) 0 m in
  let lo := meet_lo lo1 hi1 0 m in
  let hi := meet_hi lo1 hi1 0 m in
  Z.max 0 (np.adjust m hi - np.adjust m lo)
  = Z.max 0 (Z.min (o + m) n - Z.max o 0)
  /\ (0 < np.adjust m hi - np.adjust m lo -> np.adjust m lo = Z.max (0 - o) 0)
  /\ 0 <= np.adjust m lo.
Proof.
  intros Hm Hn lo1 hi1 lo hi.
  pose proof (meet_cases (0 - o) (0 - o + n) 0 m) as H1.
  fold lo1 hi1 in H1.
  assert (Hle : lo1 <= hi1) by lia.
  pose proof (clip lo1 hi1 m Hle Hm) as H2. cbv zeta in H2. fold lo hi in H2.
  clearbody lo hi. clearbody lo1 hi1.
  forget_adjust. lia.
Qed.

End Axis.

Lemma meet_back_hi la ha lb hb : meet_back la ha lb hb = meet_hi la ha lb hb.
Proof. unfold meet_back. lia. Qed.

(** [extract_from]: the destination range is in the buffer (length [m],
    the extent of the box), the source range in the image (length [n]).
    The bounds are written the way the code computes them. *)
Lemma extract_axis (o : Z) (m n : nat) :
  let lo1 := meet_lo (0 - o) (0 - o + Z.of_nat n) 0 (0 + Z.of_nat m) in
  let hi1 := meet_back (0 - o) (0 - o + Z.of_nat n) 0 (0 + Z.of_nat m) in
  aligned o m n
    (np.indices (Box.slice_of (meet_lo lo1 hi1 0 (0 + Z.of_nat m))
                              (meet_back lo1 hi1 0 (0 + Z.of_nat m))) m)
    (np.indices (Box.slice_of
                   (meet_lo o (o + Z.of_nat m) 0 (0 + Z.of_nat n))
                   (meet_back o (o + Z.of_nat m) 0 (0 + Z.of_nat n))) n).
Proof.
  intros lo1 hi1. subst lo1 hi1. rewrite !meet_back_hi, !Z.add_0_l.
  destruct (clip_array_in_box o (Z.of_nat m) (Z.of_nat n)) as (D1 & D2 & D3);
    [lia | lia |].
  destruct (clip o (o + Z.of_nat m) (Z.of_nat n)) as (S1 & S2 & S3);
    [lia | lia |].
  rewrite !indices_slice_of. cbv zeta in D1, D2, D3, S1, S2, S3.
  unfold aligned. setoid_rewrite covers_spec. cbn [fst snd].
  forget_adjust.
  split; [lia|]. intros k Hk. split; lia.
Qed.

(** [insert_into]: the destination range is in the image, the source
    range in the buffer. *)
Lemma insert_axis (o : Z) (m n : nat) :
  let lo1 := meet_lo (0 - o) (0 - o + Z.of_nat n) 0 (0 + Z.of_nat m) in
  let hi1 := meet_back (0 - o) (0 - o + Z.of_nat n) 0 (0 + Z.of_nat m) in
  aligned (- o) n m
    (np.indices (Box.slice_of
                   (meet_lo o (o + Z.of_nat m) 0 (0 + Z.of_nat n))
                   (meet_back o (o + Z.of_nat m) 0 (0 + Z.of_nat n))) n)
    (np.indices (Box.slice_of (meet_lo lo1 hi1 0 (0 + Z.of_nat m))
                              (meet_back lo1 hi1 0 (0 + Z.of_nat m))) m).
Proof.
  intros lo1 hi1. subst lo1 hi1. rewrite !meet_back_hi, !Z.add_0_l.
  destruct (clip_array_in_box o (Z.of_nat m) (Z.of_nat n)) as (D1 & D2 & D3);
    [lia | lia |].
  destruct (clip o (o + Z.of_nat m) (Z.of_nat n)) as (S1 & S2 & S3);
    [lia | lia |].
  rewrite !indices_slice_of. cbv zeta in D1, D2, D3, S1, S2, S3.
  unfold aligned. setoid_rewrite covers_spec. cbn [fst snd].
  forget_adjust.
  split; [lia|]. intros k Hk. split; lia.
Qed.

Section FrameAxis.
Local Open Scope Z_scope.

(** [meet_lo] and [meet_hi] commute with a shift of both intervals. *)
Lemma meet_lo_shift la ha lb hb d :
  meet_lo la ha lb hb - d = meet_lo (lb - d) (hb - d) (la - d) (ha - d).
Proof. unfold meet_lo. lia. Qed.

Lemma meet_hi_shift la ha lb hb d :
  meet_hi la ha lb hb - d = meet_hi (lb - d) (hb - d) (la - d) (ha - d).
Proof. unfold meet_hi. lia. Qed.

Lemma meet_lo_comm la ha lb hb : meet_lo la ha lb hb = meet_lo lb hb la ha.
Proof. unfold meet_lo. lia. Qed.

Lemma meet_hi_comm la ha lb hb : meet_hi la ha lb hb = meet_hi lb hb la ha.
Proof. unfold meet_hi. lia. Qed.
End FrameAxis.

(** [overlapped_slices]: the first range is in the array of the frame
    (length [n], origin [fo]), the second in the model (length [m], origin
    [bo]). *)
Lemma frame_axis (fo bo : Z) (n m : nat) :
  let lo := meet_lo fo (fo + Z.of_nat n) bo (bo + Z.of_nat m) in
  let hi := meet_hi fo (fo + Z.of_nat n) bo (bo + Z.of_nat m) in
  aligned (fo - bo) n m
    (np.indices (Box.slice_of (lo - fo) (lo - fo + (hi - lo))) n)
    (np.indices (Box.slice_of (lo - bo) (lo - bo + (hi - lo))) m).
Proof.
  intros lo hi.
  replace (lo - fo + (hi - lo))%Z with (hi - fo)%Z by lia.
  replace (lo - bo + (hi - lo))%Z with (hi - bo)%Z by lia.
  subst lo hi.
  rewrite (meet_lo_shift _ _ _ _ fo), (meet_hi_shift _ _ _ _ fo).
  rewrite (meet_lo_comm fo), (meet_hi_comm fo).
  rewrite (meet_lo_shift _ _ _ _ bo), (meet_hi_shift _ _ _ _ bo).
  replace (fo - fo)%Z with 0%Z by lia.
  replace (bo - bo)%Z with 0%Z by lia.
  replace (fo + Z.of_nat n - fo)%Z with (Z.of_nat n) by lia.
  replace (bo + Z.of_nat m - bo)%Z with (Z.of_nat m) by lia.
  destruct (clip (bo - fo) (bo + Z.of_nat m - fo) (Z.of_nat n))
    as (F1 & F2 & F3); [lia | lia |].
  destruct (clip (fo - bo) (fo + Z.of_nat n - bo) (Z.of_nat m))
    as (M1 & M2 & M3); [lia | lia |].
  cbv zeta in F1, F2, F3, M1, M2, M3.
  rewrite !indices_slice_of.
  unfold aligned. setoid_rewrite covers_spec. cbn [fst snd].
  forget_adjust.
  split; [lia|]. intros k Hk. split; lia.
Qed.

(** ** Elements of a transfer *)

Ltac nonneg_list := repeat (constructor; [cbv beta; lia|]); constructor.

Ltac name_ranges A d r :=
  cbv zeta in A;
  match type of A with
  | aligned _ _ _ ?x ?y => set (d := x) in *; set (r := y) in *
  end.

Section TransferFacts.
Context {V : Type} `{np.Elem V}.
Implicit Types (a b : np.ndarray V).

Lemma item_wf a idx :
  np.wf a = true -> np.inb (np.shape a) idx = true ->
  np.item a idx = Some (np.get a idx).
Proof.
  intros Hwf Hin. unfold np.get, np.item. rewrite Hin.
  destruct (np.buf a !! _) eqn:E; [reflexivity|].
  apply lookup_ge_None in E. apply Nat.eqb_eq in Hwf.
  pose proof (ravel_lt _ _ Hin). lia.
Qed.

Lemma get_zeros sh dt idx :
  np.get (np.Array sh (replicate (np.size sh) np.zero) dt) idx = (np.zero : V).
Proof.
  unfold np.get. rewrite item_zeros. destruct (np.inb sh idx); reflexivity.
Qed.

Lemma inb3 n0 n1 n2 z y x :
  np.inb [n0; n1; n2] [z; y; x] = true <-> z < n0 /\ y < n1 /\ x < n2.
Proof. simpl. rewrite !andb_true_iff, !Nat.ltb_lt. tauto. Qed.

Lemma inb2 n1 n2 y x :
  np.inb [n1; n2] [y; x] = true <-> y < n1 /\ x < n2.
Proof. simpl. rewrite !andb_true_iff, !Nat.ltb_lt. tauto. Qed.

Lemma pixel_in a (p : list Z) :
  np.wf a = true ->
  Forall (fun k => 0 <= k)%Z p ->
  np.inb (np.shape a) (Z.to_nat <$> p) = true ->
  pixel a p = Some (np.get a (Z.to_nat <$> p)).
Proof.
  intros Hwf Hp Hin. unfold pixel.
  replace (forallb _ p) with true.
  - apply item_wf; assumption.
  - symmetry. apply forallb_forall. intros k Hk.
    rewrite Forall_forall in Hp. apply Z.leb_le, Hp, list_elem_of_In, Hk.
Qed.

Lemma pixel_out a (p : list Z) :
  (Exists (fun k => k < 0)%Z p
   \/ np.inb (np.shape a) (Z.to_nat <$> p) = false) ->
  pixel a p = None.
Proof.
  intros [Hneg|Hout]; unfold pixel.
  - replace (forallb _ p) with false; [reflexivity|].
    symmetry. apply not_true_is_false. intros Hall.
    rewrite forallb_forall in Hall.
    apply Exists_exists in Hneg as (k & Hk & Hlt).
    apply list_elem_of_In, Hall, Z.leb_le in Hk. lia.
  - destruct (forallb _ p); [|reflexivity]. unfold np.item. rewrite Hout.
    reflexivity.
Qed.

(** Three aligned axes: the element the assignment writes at an index of
    the destination, or the one it leaves there, is the element of the
    source at the shifted position when there is one. *)
Lemma aligned3 b n0 n1 n2 o0 o1 o2 m0 m1 m2 d0 d1 d2 s0 s1 s2 z y x
    (old : V) :
  np.wf b = true -> np.shape b = [n0; n1; n2] ->
  aligned o0 m0 n0 d0 s0 -> aligned o1 m1 n1 d1 s1 ->
  aligned o2 m2 n2 d2 s2 ->
  z < m0 -> y < m1 -> x < m2 ->
  match np.locate [np.Range d0.1 d0.2; np.Range d1.1 d1.2; np.Range d2.1 d2.2]
                  [z; y; x] with
  | Some j => np.get b (np.source
                [np.Range s0.1 s0.2; np.Range s1.1 s1.2; np.Range s2.1 s2.2] j)
  | None => old
  end
  = from_option id old (pixel b (shift [z; y; x] [o0; o1; o2])).
Proof.
  intros Hwf Hsh (_ & A0) (_ & A1) (_ & A2) Hz Hy Hx.
  destruct (A0 z Hz) as [C0 P0], (A1 y Hy) as [C1 P1], (A2 x Hx) as [C2 P2].
  unfold shift; simpl. fold (covers d0 z) (covers d1 y) (covers d2 x).
  destruct (covers d0 z) eqn:E0; simpl;
    [destruct (covers d1 y) eqn:E1; simpl;
      [destruct (covers d2 x) eqn:E2; simpl|]|].
  - specialize (P0 eq_refl). specialize (P1 eq_refl). specialize (P2 eq_refl).
    pose proof (proj1 C0 eq_refl). pose proof (proj1 C1 eq_refl).
    pose proof (proj1 C2 eq_refl).
    rewrite pixel_in; simpl.
    + f_equal. repeat (apply (f_equal2 cons)); first [reflexivity | lia].
    + assumption.
    + nonneg_list.
    + rewrite Hsh. apply inb3. lia.
  - assert (~ (0 <= Z.of_nat x + o2 < Z.of_nat n2)%Z)
      by (intros X; apply C2 in X; discriminate).
    rewrite pixel_out; [reflexivity|].
    destruct (decide (Z.of_nat x + o2 < 0)%Z).
    + left. do 2 apply Exists_cons_tl. apply Exists_cons_hd. assumption.
    + right. rewrite Hsh. apply not_true_is_false. intros X.
      apply (inb3 n0 n1 n2) in X. lia.
  - assert (~ (0 <= Z.of_nat y + o1 < Z.of_nat n1)%Z)
      by (intros X; apply C1 in X; discriminate).
    rewrite pixel_out; [reflexivity|].
    destruct (decide (Z.of_nat y + o1 < 0)%Z).
    + left. apply Exists_cons_tl. apply Exists_cons_hd. assumption.
    + right. rewrite Hsh. apply not_true_is_false. intros X.
      apply (inb3 n0 n1 n2) in X. lia.
  - assert (~ (0 <= Z.of_nat z + o0 < Z.of_nat n0)%Z)
      by (intros X; apply C0 in X; discriminate).
    rewrite pixel_out; [reflexivity|].
    destruct (decide (Z.of_nat z + o0 < 0)%Z).
    + left. apply Exists_cons_hd. assumption.
    + right. rewrite Hsh. apply not_true_is_false. intros X.
      apply (inb3 n0 n1 n2) in X. lia.
Qed.

(** The same for the two axes of a 2-D array. *)
Lemma aligned2 b n1 n2 o1 o2 m1 m2 d1 d2 s1 s2 y x (old : V) :
  np.wf b = true -> np.shape b = [n1; n2] ->
  aligned o1 m1 n1 d1 s1 -> aligned o2 m2 n2 d2 s2 ->
  y < m1 -> x < m2 ->
  match np.locate [np.Range d1.1 d1.2; np.Range d2.1 d2.2] [y; x] with
  | Some j => np.get b (np.source [np.Range s1.1 s1.2; np.Range s2.1 s2.2] j)
  | None => old
  end
  = from_option id old (pixel b (shift [y; x] [o1; o2])).
Proof.
  intros Hwf Hsh (_ & A1) (_ & A2) Hy Hx.
  destruct (A1 y Hy) as [C1 P1], (A2 x Hx) as [C2 P2].
  unfold shift; simpl. fold (covers d1 y) (covers d2 x).
  destruct (covers d1 y) eqn:E1; simpl;
    [destruct (covers d2 x) eqn:E2; simpl|].
  - specialize (P1 eq_refl). specialize (P2 eq_refl).
    pose proof (proj1 C1 eq_refl). pose proof (proj1 C2 eq_refl).
    rewrite pixel_in; simpl.
    + f_equal. repeat (apply (f_equal2 cons)); first [reflexivity | lia].
    + assumption.
    + nonneg_list.
    + rewrite Hsh. apply inb2. lia.
  - assert (~ (0 <= Z.of_nat x + o2 < Z.of_nat n2)%Z)
      by (intros X; apply C2 in X; discriminate).
    rewrite pixel_out; [reflexivity|].
    destruct (decide (Z.of_nat x + o2 < 0)%Z).
    + left. apply Exists_cons_tl. apply Exists_cons_hd. assumption.
    + right. rewrite Hsh. apply not_true_is_false. intros X.
      apply (inb2 n1 n2) in X. lia.
  - assert (~ (0 <= Z.of_nat y + o1 < Z.of_nat n1)%Z)
      by (intros X; apply C1 in X; discriminate).
    rewrite pixel_out; [reflexivity|].
    destruct (decide (Z.of_nat y + o1 < 0)%Z).
    + left. apply Exists_cons_hd. assumption.
    + right. rewrite Hsh. apply not_true_is_false. intros X.
      apply (inb2 n1 n2) in X. lia.
Qed.

(** ** [extract_from] into a new buffer *)

Lemma extract3 (R : Box.t) (S : np.ndarray V) c h w :
  nonneg R -> np.wf S = true -> np.shape S = [c; h; w] ->
  exists sub,
    Box.extract_from R S None = Ok sub
    /\ np.shape sub = Z.to_nat <$> Box.tuple (Box.shape R)
    /\ np.dtype sub = np.float64
    /\ np.wf sub = true
    /\ forall idx, np.inb (np.shape sub) idx = true ->
         np.item sub idx
         = Some (from_option id np.zero
                   (pixel S (shift idx (Box.tuple (Box.origin R))))).
Proof.
  intros (H0 & H1 & H2) Hwf HS.
  destruct R as [[[s0 s1] s2] [[o0 o1] o2]].
  unfold nonneg, Box.C, Box.Ny, Box.Nx in *; simpl in *.
  apply Z_of_nat_complete in H0 as [m0 ->], H1 as [m1 ->], H2 as [m2 ->].
  unfold Box.extract_from, Box.from_image. rewrite HS. simpl.
  assert (Hnn : Forall (fun d => 0 <= d)%Z
                  [Z.of_nat m0; Z.of_nat m1; Z.of_nat m2]) by nonneg_list.
  rewrite zeros_ok by assumption. simpl. rewrite !Nat2Z.id.
  rewrite and_closed. simpl.
  unfold Box.slices_for. rewrite HS. simpl. rewrite !and_closed. simpl.
  pose proof (extract_axis o0 m0 c) as A0. name_ranges A0 d0 r0.
  pose proof (extract_axis o1 m1 h) as A1. name_ranges A1 d1 r1.
  pose proof (extract_axis o2 m2 w) as A2. name_ranges A2 d2 r2.
  match goal with
  | |- exists sub,
        (let! v := np.getitem ?b ?ixs in np.setitem ?a ?ixd v) = Ok sub /\ _ =>
      destruct (transfer a b ixd ixs
                  [np.Range d0.1 d0.2; np.Range d1.1 d1.2; np.Range d2.1 d2.2]
                  [np.Range r0.1 r0.2; np.Range r1.1 r1.2; np.Range r2.1 r2.2])
        as (r & Hr & Hsh & Hdt & Hwfr & Hit)
  end.
  - reflexivity.
  - rewrite HS. reflexivity.
  - change ([d0.2; d1.2; d2.2] = [r0.2; r1.2; r2.2]).
    destruct A0 as [-> _], A1 as [-> _], A2 as [-> _]. reflexivity.
  - exists r. split; [exact Hr|]. split; [exact Hsh|]. split; [exact Hdt|].
    split; [exact Hwfr|].
    intros idx Hin. rewrite Hsh in Hin. rewrite (Hit idx Hin).
    pose proof (inb_length _ _ Hin) as Hlen.
    destruct idx as [|z [|y [|x [|]]]]; try discriminate Hlen.
    apply inb3 in Hin as (Hz & Hy & Hx).
    f_equal. rewrite (aligned3 S c h w o0 o1 o2 m0 m1 m2); try assumption.
    replace (np.get _ [z; y; x]) with (np.zero : V)
      by (symmetry; apply (get_zeros [m0; m1; m2])).
    reflexivity.
Qed.

Lemma extract2 (R : Box.t) (S : np.ndarray V) h w :
  nonneg R -> np.wf S = true -> np.shape S = [h; w] ->
  exists sub,
    Box.extract_from R S None = Ok sub
    /\ np.shape sub = Z.to_nat <$> tail (Box.tuple (Box.shape R))
    /\ np.dtype sub = np.float64
    /\ np.wf sub = true
    /\ forall idx, np.inb (np.shape sub) idx = true ->
         np.item sub idx
         = Some (from_option id np.zero
                   (pixel S (shift idx (tail (Box.tuple (Box.origin R)))))).
Proof.
  intros (H0 & H1 & H2) Hwf HS.
  destruct R as [[[s0 s1] s2] [[o0 o1] o2]].
  unfold nonneg, Box.C, Box.Ny, Box.Nx in *; simpl in *.
  apply Z_of_nat_complete in H1 as [m1 ->], H2 as [m2 ->].
  unfold Box.extract_from, Box.from_image. rewrite HS. simpl.
  assert (Hnn : Forall (fun d => 0 <= d)%Z [Z.of_nat m1; Z.of_nat m2])
    by nonneg_list.
  rewrite zeros_ok by assumption. simpl. rewrite !Nat2Z.id.
  rewrite and_closed. simpl.
  unfold Box.slices_for. rewrite HS. simpl. rewrite !and_closed. simpl.
  pose proof (extract_axis o1 m1 h) as A1. name_ranges A1 d1 r1.
  pose proof (extract_axis o2 m2 w) as A2. name_ranges A2 d2 r2.
  match goal with
  | |- exists sub,
        (let! v := np.getitem ?b ?ixs in np.setitem ?a ?ixd v) = Ok sub /\ _ =>
      destruct (transfer a b ixd ixs
                  [np.Range d1.1 d1.2; np.Range d2.1 d2.2]
                  [np.Range r1.1 r1.2; np.Range r2.1 r2.2])
        as (r & Hr & Hsh & Hdt & Hwfr & Hit)
  end.
  - reflexivity.
  - rewrite HS. reflexivity.
  - change ([d1.2; d2.2] = [r1.2; r2.2]).
    destruct A1 as [-> _], A2 as [-> _]. reflexivity.
  - exists r. split; [exact Hr|]. split; [exact Hsh|]. split; [exact Hdt|].
    split; [exact Hwfr|].
    intros idx Hin. rewrite Hsh in Hin. rewrite (Hit idx Hin).
    pose proof (inb_length _ _ Hin) as Hlen.
    destruct idx as [|y [|x [|]]]; try discriminate Hlen.
    apply inb2 in Hin as (Hy & Hx).
    f_equal. rewrite (aligned2 S h w o1 o2 m1 m2); try assumption.
    replace (np.get _ [y; x]) with (np.zero : V)
      by (symmetry; apply (get_zeros [m1; m2])).
    reflexivity.
Qed.

End TransferFacts.

Ltac bool_lia :=
  apply eq_true_iff_eq;
  rewrite ?andb_true_iff, ?orb_true_iff, ?Z.leb_le, ?Z.ltb_lt, ?Nat.ltb_lt;
  lia.

Section Transfers.
Context {V : Type} `{np.Elem V}.
Implicit Types (a b : np.ndarray V).

Lemma inZ_split sh p :
  inZ sh p = forallb (fun k => 0 <=? k)%Z p && np.inb sh (Z.to_nat <$> p).
Proof.
  revert p; induction sh as [|n sh IH]; intros [|k p]; simpl; try reflexivity.
  - destruct (0 <=? k)%Z, (forallb _ p); reflexivity.
  - rewrite IH.
    destruct (Z.leb_spec 0 k); simpl; [|reflexivity].
    replace (Z.to_nat k <? n) with (k <? Z.of_nat n)%Z.
    + destruct (k <? Z.of_nat n)%Z, (forallb _ p); simpl; reflexivity.
    + apply eq_true_iff_eq. rewrite Z.ltb_lt, Nat.ltb_lt. lia.
Qed.

Lemma pixel_spec a p :
  np.wf a = true ->
  pixel a p
  = if inZ (np.shape a) p then Some (np.get a (Z.to_nat <$> p)) else None.
Proof.
  intros Hwf. rewrite inZ_split. unfold pixel.
  destruct (forallb _ p); simpl; [|reflexivity].
  destruct (np.inb (np.shape a) (Z.to_nat <$> p)) eqn:E.
  - apply item_wf; assumption.
  - unfold np.item. rewrite E. reflexivity.
Qed.

(** ** [insert_into] *)

Lemma insert3 (R : Box.t) (T sub : np.ndarray V) c h w :
  nonneg R -> np.wf sub = true -> np.shape T = [c; h; w] ->
  np.shape sub = Z.to_nat <$> Box.tuple (Box.shape R) ->
  exists T',
    Box.insert_into R T sub = Ok T'
    /\ np.shape T' = np.shape T
    /\ np.dtype T' = np.dtype T
    /\ np.wf T' = true
    /\ forall idx, np.inb (np.shape T) idx = true ->
         np.item T' idx
         = Some (from_option id (np.get T idx)
                   (pixel sub (shift idx (Z.opp <$> Box.tuple (Box.origin R))))).
Proof.
  intros (H0 & H1 & H2) Hwf HT Hsub.
  destruct R as [[[s0 s1] s2] [[o0 o1] o2]].
  unfold nonneg, Box.C, Box.Ny, Box.Nx in *; simpl in *.
  apply Z_of_nat_complete in H0 as [m0 ->], H1 as [m1 ->], H2 as [m2 ->].
  rewrite !Nat2Z.id in Hsub.
  unfold Box.insert_into, Box.from_image. rewrite HT, Hsub. simpl.
  rewrite and_closed. simpl.
  unfold Box.slices_for. rewrite HT, Hsub. simpl. rewrite !and_closed. simpl.
  pose proof (insert_axis o0 m0 c) as A0. name_ranges A0 d0 r0.
  pose proof (insert_axis o1 m1 h) as A1. name_ranges A1 d1 r1.
  pose proof (insert_axis o2 m2 w) as A2. name_ranges A2 d2 r2.
  match goal with
  | |- exists sub,
        (let! v := np.getitem ?b ?ixs in np.setitem ?a ?ixd v) = Ok sub /\ _ =>
      destruct (transfer a b ixd ixs
                  [np.Range d0.1 d0.2; np.Range d1.1 d1.2; np.Range d2.1 d2.2]
                  [np.Range r0.1 r0.2; np.Range r1.1 r1.2; np.Range r2.1 r2.2])
        as (r & Hr & Hsh & Hdt & Hwfr & Hit)
  end.
  - rewrite HT. reflexivity.
  - rewrite Hsub. reflexivity.
  - change ([d0.2; d1.2; d2.2] = [r0.2; r1.2; r2.2]).
    destruct A0 as [-> _], A1 as [-> _], A2 as [-> _]. reflexivity.
  - exists r. rewrite HT in Hsh, Hit.
    split; [exact Hr|]. split; [exact Hsh|]. split; [exact Hdt|].
    split; [exact Hwfr|].
    intros idx Hin. rewrite (Hit idx Hin).
    pose proof (inb_length [c; h; w] idx Hin) as Hlen.
    destruct idx as [|z [|y [|x [|]]]]; try discriminate Hlen.
    apply (inb3 c h w) in Hin as (Hz & Hy & Hx).
    f_equal.
    apply (aligned3 sub m0 m1 m2 (- o0)%Z (- o1)%Z (- o2)%Z c h w);
      assumption.
Qed.

Lemma insert2 (R : Box.t) (T sub : np.ndarray V) h w :
  nonneg R -> np.wf sub = true -> np.shape T = [h; w] ->
  np.shape sub = Z.to_nat <$> tail (Box.tuple (Box.shape R)) ->
  exists T',
    Box.insert_into R T sub = Ok T'
    /\ np.shape T' = np.shape T
    /\ np.dtype T' = np.dtype T
    /\ np.wf T' = true
    /\ forall idx, np.inb (np.shape T) idx = true ->
         np.item T' idx
         = Some (from_option id (np.get T idx)
                   (pixel sub
                      (shift idx (Z.opp <$> tail (Box.tuple (Box.origin R)))))).
Proof.
  intros (H0 & H1 & H2) Hwf HT Hsub.
  destruct R as [[[s0 s1] s2] [[o0 o1] o2]].
  unfold nonneg, Box.C, Box.Ny, Box.Nx in *; simpl in *.
  apply Z_of_nat_complete in H1 as [m1 ->], H2 as [m2 ->].
  rewrite !Nat2Z.id in Hsub.
  unfold Box.insert_into, Box.from_image. rewrite HT, Hsub. simpl.
  rewrite and_closed. simpl.
  unfold Box.slices_for. rewrite HT, Hsub. simpl. rewrite !and_closed. simpl.
  pose proof (insert_axis o1 m1 h) as A1. name_ranges A1 d1 r1.
  pose proof (insert_axis o2 m2 w) as A2. name_ranges A2 d2 r2.
  match goal with
  | |- exists sub,
        (let! v := np.getitem ?b ?ixs in np.setitem ?a ?ixd v) = Ok sub /\ _ =>
      destruct (transfer a b ixd ixs
                  [np.Range d1.1 d1.2; np.Range d2.1 d2.2]
                  [np.Range r1.1 r1.2; np.Range r2.1 r2.2])
        as (r & Hr & Hsh & Hdt & Hwfr & Hit)
  end.
  - rewrite HT. reflexivity.
  - rewrite Hsub. reflexivity.
  - change ([d1.2; d2.2] = [r1.2; r2.2]).
    destruct A1 as [-> _], A2 as [-> _]. reflexivity.
  - exists r. rewrite HT in Hsh, Hit.
    split; [exact Hr|]. split; [exact Hsh|]. split; [exact Hdt|].
    split; [exact Hwfr|].
    intros idx Hin. rewrite (Hit idx Hin).
    pose proof (inb_length [h; w] idx Hin) as Hlen.
    destruct idx as [|y [|x [|]]]; try discriminate Hlen.
    apply (inb2 h w) in Hin as (Hy & Hx).
    f_equal.
    apply (aligned2 sub m1 m2 (- o1)%Z (- o2)%Z h w); assumption.
Qed.


End Transfers.

(** ** Projection of a model into a frame *)

Section Projection.
Context {V : Type} `{np.Elem V}.

(** The constructor and the two setters leave the cache as
    [cache_ok] has it. *)
Lemma init_cache_ok frame bbox self :
  Component.__init__ frame bbox = Ok self -> cache_ok self.
Proof.
  unfold Component.__init__, cache_ok.
  destruct (Box.overlapped_slices _ _) as [[fs ms]|e] eqn:E; simpl;
    [|discriminate].
  intros [= <-]. simpl. exact E.
Qed.

Lemma set_frame_cache_ok self f self' :
  Component.set_frame self f = Ok self' -> cache_ok self'.
Proof.
  unfold Component.set_frame, cache_ok.
  destruct (Box.overlapped_slices _ _) as [[fs ms]|e] eqn:E; simpl;
    [|discriminate].
  intros [= <-]. simpl. exact E.
Qed.

Lemma set_bbox_cache_ok self b self' :
  Component.set_bbox self b = Ok self' -> cache_ok self'.
Proof.
  unfold Component.set_bbox, cache_ok.
  destruct (Box.overlapped_slices _ _) as [[fs ms]|e] eqn:E; simpl;
    [|discriminate].
  intros [= <-]. simpl. exact E.
Qed.

Lemma fill_overlap (F : Frame.t) (B : Box.t) (model : np.ndarray V) :
  nonneg (Frame.bbox F) -> nonneg B -> np.wf model = true ->
  np.shape model = Z.to_nat <$> Box.tuple (Box.shape B) ->
  exists r,
    Component.fill F
      (Box.ranges (Box.__isub__ (meet (Frame.bbox F) B)
                                (Box.origin (Frame.bbox F))))
      (Box.ranges (Box.__isub__ (meet (Frame.bbox F) B) (Box.origin B)))
      model = Ok r
    /\ np.shape r = Z.to_nat <$> Box.tuple (Frame.shape F)
    /\ np.dtype r = default (np.dtype model) (Frame.dtype F)
    /\ np.wf r = true
    /\ forall idx, np.inb (np.shape r) idx = true ->
         np.item r idx
         = Some (from_option id np.zero
                   (pixel model (shift idx (relative (Frame.bbox F) B)))).
Proof.
  intros (F0 & F1 & F2) (B0 & B1 & B2) Hwf Hm.
  destruct F as [fid [[[n0 n1] n2] [[f0 f1] f2]] fdt].
  destruct B as [[[s0 s1] s2] [[o0 o1] o2]].
  unfold nonneg, Box.C, Box.Ny, Box.Nx, Frame.shape in *; simpl in *.
  apply Z_of_nat_complete in F0 as [c ->], F1 as [h ->], F2 as [w ->].
  apply Z_of_nat_complete in B0 as [m0 ->], B1 as [m1 ->], B2 as [m2 ->].
  rewrite !Nat2Z.id in *.
  unfold Component.fill, Frame.shape. simpl.
  assert (Hnn : Forall (fun d => 0 <= d)%Z
                  [Z.of_nat c; Z.of_nat h; Z.of_nat w]) by nonneg_list.
  rewrite zeros_ok by assumption. simpl. rewrite !Nat2Z.id.
  pose proof (frame_axis f0 o0 c m0) as A0. name_ranges A0 d0 r0.
  pose proof (frame_axis f1 o1 h m1) as A1. name_ranges A1 d1 r1.
  pose proof (frame_axis f2 o2 w m2) as A2. name_ranges A2 d2 r2.
  match goal with
  | |- exists sub,
        (let! v := np.getitem ?b ?ixs in np.setitem ?a ?ixd v) = Ok sub /\ _ =>
      destruct (transfer a b ixd ixs
                  [np.Range d0.1 d0.2; np.Range d1.1 d1.2; np.Range d2.1 d2.2]
                  [np.Range r0.1 r0.2; np.Range r1.1 r1.2; np.Range r2.1 r2.2])
        as (r & Hr & Hsh & Hdt & Hwfr & Hit)
  end.
  - reflexivity.
  - rewrite Hm. reflexivity.
  - change ([d0.2; d1.2; d2.2] = [r0.2; r1.2; r2.2]).
    destruct A0 as [-> _], A1 as [-> _], A2 as [-> _]. reflexivity.
  - exists r. split; [exact Hr|]. split; [exact Hsh|].
    split; [rewrite Hdt; destruct fdt; reflexivity|].
    split; [exact Hwfr|].
    intros idx Hin. rewrite Hsh in Hin. rewrite (Hit idx Hin).
    pose proof (inb_length [c; h; w] idx Hin) as Hlen.
    destruct idx as [|z [|y [|x [|]]]]; try discriminate Hlen.
    apply (inb3 c h w) in Hin as (Hz & Hy & Hx).
    f_equal.
    rewrite (aligned3 model m0 m1 m2 (f0 - o0)%Z (f1 - o1)%Z (f2 - o2)%Z c h w);
      try assumption.
    replace (np.get _ [z; y; x]) with (np.zero : V)
      by (symmetry; apply (get_zeros [c; h; w])).
    reflexivity.
Qed.

End Projection.

(** ** Combined nodes *)

Lemma check_spec frame box cb cs :
  CombinedComponent.check frame box cb cs
  = if forallb (child_ok frame box cb) cs then Ok (components_of cs)
    else Raise AssertionError.
Proof.
  induction cs as [|[c|] cs IH]; simpl; try reflexivity.
  unfold child_ok at 1, frame_of_node, bbox_of_node.
  destruct (Frame.is_ _ frame); simpl; [|reflexivity].
  destruct cb; simpl.
  - destruct (Box.__eq__ _ box); simpl; [|reflexivity].
    rewrite IH. destruct (forallb _ cs); reflexivity.
  - rewrite IH. destruct (forallb _ cs); reflexivity.
Qed.

Lemma forallb_false_Exists {A} (f : A -> bool) l :
  forallb f l = false <-> Exists (fun x => f x = false) l.
Proof.
  induction l as [|x l IH]; simpl.
  - split; [discriminate | inversion 1].
  - rewrite andb_false_iff, IH. split.
    + intros [Hx|Hl]; [left | right]; assumption.
    + inversion 1; subst; [left | right]; assumption.
Qed.

Lemma init_spec cs op cb :
  CombinedComponent.__init__ cs op cb
  = match cs with
    | [] => Raise AssertionError
    | Other :: _ => Raise AttributeError
    | IsComponent c0 :: _ =>
        if forallb (child_ok (frame_of_node c0) (bbox_of_node c0) cb) cs
        then
          if String.eqb op "add" || String.eqb op "multiply"
          then
            match Component.__init__ (frame_of_node c0) (Some (bbox_of_node c0)) with
            | Ok self => Ok (Combined self (components_of cs) op)
            | Raise e => Raise e
            end
          else Raise AssertionError
        else Raise AssertionError
    end.
Proof.
  destruct cs as [|[c0|] cs]; try reflexivity.
  unfold CombinedComponent.__init__.
  cbn [length Nat.eqb negb assert Py.bind CombinedComponent.frame_of
       CombinedComponent.bbox_of].
  rewrite check_spec. fold (frame_of_node c0) (bbox_of_node c0).
  destruct (forallb _ _); [|reflexivity]. cbn [Py.bind].
  rewrite component_init_closed. cbn [Py.bind].
  destruct (_ || _); reflexivity.
Qed.

Section Fold.
Context {V : Type} `{np.Elem V}.

Lemma inplace_same f (a b : np.ndarray V) :
  np.shape b = np.shape a ->
  exists r, np.inplace f a b = Ok r
    /\ np.shape r = np.shape a
    /\ forall idx, np.inb (np.shape a) idx = true ->
         np.get r idx = f (np.get a idx) (np.get b idx).
Proof.
  intros Hsh. unfold np.inplace. rewrite Hsh, broadcastable_refl.
  eexists. split; [reflexivity|]. split; [reflexivity|].
  intros idx Hin. simpl. rewrite get_tabulate by assumption.
  rewrite bsource_id by assumption. reflexivity.
Qed.

Lemma deref_insert_eq (h : Heap.t V) l a :
  l < length h -> Heap.deref (<[l := a]> h) l = a.
Proof.
  intros Hl. unfold Heap.deref. rewrite list_lookup_insert_eq by assumption.
  reflexivity.
Qed.

Lemma deref_insert_ne (h : Heap.t V) l l' a :
  l <> l' -> Heap.deref (<[l := a]> h) l' = Heap.deref h l'.
Proof.
  intros Hl. unfold Heap.deref. rewrite list_lookup_insert_ne by assumption.
  reflexivity.
Qed.

(** The loop [for model_ in models: model op= model_], when the array
    accumulated into is none of the arrays added to it and all have its
    shape. *)
Lemma accumulate_spec f (m : Heap.loc) (rest : list Heap.loc) (h : Heap.t V) :
  m < length h -> m ∉ rest ->
  (forall l, l ∈ rest ->
     np.shape (Heap.deref h l) = np.shape (Heap.deref h m)) ->
  exists h',
    accumulate f m rest h = Ok (tt, h')
    /\ length h' = length h
    /\ np.shape (Heap.deref h' m) = np.shape (Heap.deref h m)
    /\ (forall l, l <> m -> h' !! l = h !! l)
    /\ forall idx, np.inb (np.shape (Heap.deref h m)) idx = true ->
         np.get (Heap.deref h' m) idx
         = foldl (fun acc l => f acc (np.get (Heap.deref h l) idx))
                 (np.get (Heap.deref h m) idx) rest.
Proof.
  revert h. induction rest as [|l rest IH]; intros h Hm Hni Hsh.
  - exists h. simpl. repeat split; reflexivity.
  - apply not_elem_of_cons in Hni as [Hne Hni].
    destruct (inplace_same f (Heap.deref h m) (Heap.deref h l)) as (r & Hr & Hrs & Hrv).
    { apply Hsh. left. }
    destruct (IH (<[m := r]> h)) as (h' & Hacc & Hlen & Hshape & Hother & Hval).
    + rewrite length_insert. assumption.
    + assumption.
    + intros l' Hl'. rewrite deref_insert_eq by assumption.
      rewrite deref_insert_ne by (intros ->; contradiction).
      rewrite Hrs. apply Hsh. right. assumption.
    + exists h'. split.
      { simpl. unfold Heap.bind, Heap.read, Heap.lift, Heap.write.
        rewrite Hr. exact Hacc. }
      rewrite length_insert in Hlen.
      rewrite deref_insert_eq in Hshape, Hval by assumption.
      split; [exact Hlen|]. split; [congruence|]. split.
      { intros l' Hl'. rewrite Hother by assumption.
        apply list_lookup_insert_ne. congruence. }
      intros idx Hin. rewrite Hval by (rewrite Hrs; assumption).
      simpl. rewrite Hrv by assumption.
      clear -Hni Hne Hm. revert Hni.
      generalize (f (np.get (Heap.deref h m) idx) (np.get (Heap.deref h l) idx)).
      induction rest as [|l' rest IHr]; intros v Hni; simpl; [reflexivity|].
      apply not_elem_of_cons in Hni as [Hne' Hni].
      rewrite deref_insert_ne by congruence. apply IHr. assumption.
Qed.

End Fold.

(** ** The worked examples *)

Lemma comp0_constructed : Component.__init__ frame0 (Some box0) = Ok comp0.
Proof. reflexivity. Qed.

(** C6. On [CombinedComponent([CubeComponent(frame0, cube0, box0),
    CubeComponent(frame0, cube1, box0)])], with the spec-modelled
    [get_parameter] and [get_models_of_children]: the render of the
    first child is its parameter array itself, elements 1, 2, 3, 4; after
    [get_model] of the combined node that array holds 11, 22, 33, 44, and
    after a second [get_model] 21, 42, 63, 84. The render changed the
    parameter of a child, and the array the child's own [get_model]
    returned. *)
Theorem combined_render_mutates_parameter :
  exists c0 c1 self h1 h2,
    sum_of_cubes
    = Ok (Combined self [Cube c0 (Param.Param "cube" 0);
                         Cube c1 (Param.Param "cube" 1)] "add")
    /\ get_model (Cube c0 (Param.Param "cube" 0)) None store0 = Ok (0, store0)
    /\ get_model (Combined self [Cube c0 (Param.Param "cube" 0);
                                 Cube c1 (Param.Param "cube" 1)] "add")
         None store0 = Ok (0, h1)
    /\ Heap.deref store0 0 = np.Array [1; 2; 2] [1; 2; 3; 4]%Z np.float64
    /\ Heap.deref h1 0 = np.Array [1; 2; 2] [11; 22; 33; 44]%Z np.float64
    /\ get_model (Combined self [Cube c0 (Param.Param "cube" 0);
                                 Cube c1 (Param.Param "cube" 1)] "add")
         None h1 = Ok (0, h2)
    /\ Heap.deref h2 0 = np.Array [1; 2; 2] [21; 42; 63; 84]%Z np.float64.
Proof.
  do 5 eexists. split; [vm_compute; reflexivity|].
  repeat split; vm_compute; reflexivity.
Qed.







(* ===================================================================== *)
(** * Further properties *)
(* ===================================================================== *)

(** ** Box: union, intersection and shifts *)

Lemma contains_true b p :
  Box.contains b p = Ok true
  <-> exists z y x rest, promoted p = z :: y :: x :: rest /\ between b z y x.
Proof.
  destruct b as [[[s0 s1] s2] [[o0 o1] o2]].
  unfold Box.contains, between, Box.front, Box.back, Box.bottom, Box.top,
    Box.left, Box.right. fold (promoted p).
  destruct (promoted p) as [|z [|y [|x rest]]]; simpl.
  - split; [discriminate | intros (? & ? & ? & ? & ? & _); discriminate].
  - destruct (_ || _); split; try discriminate;
      intros (? & ? & ? & ? & ? & _); discriminate.
  - destruct (_ || _); [|destruct (_ || _)]; split; try discriminate;
      intros (? & ? & ? & ? & ? & _); discriminate.
  - destruct (Z.ltb_spec z o0), (Z.gtb_spec z (o0 + s0)%Z); simpl;
      try (split; [discriminate | intros (? & ? & ? & ? & [= <- <- <- <-] & ?); lia]).
    destruct (Z.ltb_spec y o1), (Z.gtb_spec y (o1 + s1)%Z); simpl;
      try (split; [discriminate | intros (? & ? & ? & ? & [= <- <- <- <-] & ?); lia]).
    destruct (Z.ltb_spec x o2), (Z.gtb_spec x (o2 + s2)%Z); simpl;
      try (split; [discriminate | intros (? & ? & ? & ? & [= <- <- <- <-] & ?); lia]).
    split; [|reflexivity]. intros _. exists z, y, x, rest. split; [reflexivity|lia].
Qed.

Lemma or_closed a b :
  Box.__or__ a b
  = Ok (Box.Box
          (Z.max (Z.min (Box.front a) (Box.front b)) (Z.max (Box.back a) (Box.back b))
           - Z.min (Z.min (Box.front a) (Box.front b)) (Z.max (Box.back a) (Box.back b)),
           Z.max (Z.min (Box.bottom a) (Box.bottom b)) (Z.max (Box.top a) (Box.top b))
           - Z.min (Z.min (Box.bottom a) (Box.bottom b)) (Z.max (Box.top a) (Box.top b)),
           Z.max (Z.min (Box.left a) (Box.left b)) (Z.max (Box.right a) (Box.right b))
           - Z.min (Z.min (Box.left a) (Box.left b)) (Z.max (Box.right a) (Box.right b)))%Z
          (Z.min (Z.min (Box.front a) (Box.front b)) (Z.max (Box.back a) (Box.back b)),
           Z.min (Z.min (Box.bottom a) (Box.bottom b)) (Z.max (Box.top a) (Box.top b)),
           Z.min (Z.min (Box.left a) (Box.left b)) (Z.max (Box.right a) (Box.right b)))).
Proof. unfold Box.__or__. rewrite from_bounds_closed. reflexivity. Qed.

Ltac unbox :=
  unfold nonneg, meeting, between, Box.C, Box.Ny, Box.Nx, Box.front, Box.back,
    Box.bottom, Box.top, Box.left, Box.right in *; simpl in *.

(** One axis of a union and of an intersection: [l] is a lower bound,
    [s] an extent. *)
Section UnionAxis.
Local Open Scope Z_scope.

Lemma join_ordered la sa lb sb :
  0 <= sa -> 0 <= sb ->
  Z.min (Z.min la lb) (Z.max (la + sa) (lb + sb)) = Z.min la lb
  /\ Z.max (Z.min la lb) (Z.max (la + sa) (lb + sb)) = Z.max (la + sa) (lb + sb).
Proof. lia. Qed.

Lemma join_covers_l la sa lb sb z :
  la <= z <= la + sa ->
  Z.min la lb <= z <= Z.min la lb + (Z.max (la + sa) (lb + sb) - Z.min la lb).
Proof. lia. Qed.

Lemma join_covers_r la sa lb sb z :
  lb <= z <= lb + sb ->
  Z.min la lb <= z <= Z.min la lb + (Z.max (la + sa) (lb + sb) - Z.min la lb).
Proof. lia. Qed.

Lemma join_least la sa lb sb lc sc z :
  lc <= la <= lc + sc -> lc <= la + sa <= lc + sc ->
  lc <= lb <= lc + sc -> lc <= lb + sb <= lc + sc ->
  Z.min la lb <= z <= Z.min la lb + (Z.max (la + sa) (lb + sb) - Z.min la lb) ->
  lc <= z <= lc + sc.
Proof. lia. Qed.

Lemma join_extent la sa lb sb :
  0 <= sa -> 0 <= Z.max (la + sa) (lb + sb) - Z.min la lb.
Proof. lia. Qed.

Lemma join_comm la ha lb hb :
  Z.min (Z.min la lb) (Z.max ha hb) = Z.min (Z.min lb la) (Z.max hb ha)
  /\ Z.max (Z.min la lb) (Z.max ha hb) = Z.max (Z.min lb la) (Z.max hb ha).
Proof. rewrite (Z.min_comm la lb), (Z.max_comm ha hb). split; reflexivity. Qed.

Lemma join_self l s :
  0 <= s -> Z.min l l = l /\ Z.max (l + s) (l + s) - Z.min l l = s.
Proof. lia. Qed.

Lemma meet_self l s :
  0 <= s ->
  meet_lo l (l + s) l (l + s) = l
  /\ meet_hi l (l + s) l (l + s) - meet_lo l (l + s) l (l + s) = s.
Proof. unfold meet_lo, meet_hi. lia. Qed.

Lemma meet_join la sa lb sb :
  0 <= sa -> 0 <= sb ->
  let lo := Z.min la lb in
  let hi := lo + (Z.max (la + sa) (lb + sb) - lo) in
  meet_lo la (la + sa) lo hi = la
  /\ meet_hi la (la + sa) lo hi - meet_lo la (la + sa) lo hi = sa.
Proof.
  intros Ha Hb lo hi.
  assert (lo <= la) by (subst lo; lia).
  assert (la + sa <= hi) by (subst hi lo; lia).
  clearbody hi. clearbody lo. unfold meet_lo, meet_hi. lia.
Qed.

Lemma meet_ordered la ha lb hb :
  Z.max la lb <= Z.min ha hb ->
  meet_lo la ha lb hb = Z.max la lb /\ meet_hi la ha lb hb = Z.min ha hb.
Proof. unfold meet_lo, meet_hi. lia. Qed.

Lemma meet_axis la sa lb sb z :
  Z.max la lb <= Z.min (la + sa) (lb + sb) ->
  (Z.max la lb <=? z)
  && (z <? Z.max la lb + (Z.min (la + sa) (lb + sb) - Z.max la lb))
  = ((la <=? z) && (z <? la + sa)) && ((lb <=? z) && (z <? lb + sb)).
Proof.
  intros _. apply eq_true_iff_eq.
  rewrite ?andb_true_iff, ?Z.leb_le, ?Z.ltb_lt. lia.
Qed.

Lemma meet_lo_translate l1 s1 l2 s2 d :
  meet_lo (l1 - d) (l1 - d + s1) (l2 - d) (l2 - d + s2)
  = meet_lo l1 (l1 + s1) l2 (l2 + s2) - d.
Proof. unfold meet_lo. lia. Qed.

Lemma meet_hi_translate l1 s1 l2 s2 d :
  meet_hi (l1 - d) (l1 - d + s1) (l2 - d) (l2 - d + s2)
  = meet_hi l1 (l1 + s1) l2 (l2 + s2) - d.
Proof. unfold meet_hi. lia. Qed.

Lemma join_lo_translate l1 s1 l2 s2 d :
  Z.min (Z.min (l1 - d) (l2 - d)) (Z.max (l1 - d + s1) (l2 - d + s2))
  = Z.min (Z.min l1 l2) (Z.max (l1 + s1) (l2 + s2)) - d.
Proof. lia. Qed.

Lemma join_hi_translate l1 s1 l2 s2 d :
  Z.max (Z.min (l1 - d) (l2 - d)) (Z.max (l1 - d + s1) (l2 - d + s2))
  = Z.max (Z.min l1 l2) (Z.max (l1 + s1) (l2 + s2)) - d.
Proof. lia. Qed.

Lemma sub_translate (x y d : Z) : x - d - (y - d) = x - y.
Proof. ring. Qed.

End UnionAxis.

(** The union of two boxes with no negative extent. *)
Lemma or_nonneg a b :
  nonneg a -> nonneg b ->
  Box.__or__ a b
  = Ok (Box.Box
          (Z.max (Box.back a) (Box.back b) - Z.min (Box.front a) (Box.front b),
           Z.max (Box.top a) (Box.top b) - Z.min (Box.bottom a) (Box.bottom b),
           Z.max (Box.right a) (Box.right b) - Z.min (Box.left a) (Box.left b))%Z
          (Z.min (Box.front a) (Box.front b),
           Z.min (Box.bottom a) (Box.bottom b),
           Z.min (Box.left a) (Box.left b))).
Proof.
  intros (A0 & A1 & A2) (B0 & B1 & B2). rewrite or_closed.
  destruct a as [[[a0 a1] a2] [[p0 p1] p2]], b as [[[b0 b1] b2] [[q0 q1] q2]].
  unbox.
  destruct (join_ordered p0 a0 q0 b0 A0 B0) as [-> ->].
  destruct (join_ordered p1 a1 q1 b1 A1 B1) as [-> ->].
  destruct (join_ordered p2 a2 q2 b2 A2 B2) as [-> ->].
  reflexivity.
Qed.

(** X1. For boxes [a] and [b] with no negative extent, [a | b]
    raises nothing and returns a box with no negative extent that
    contains, in the sense of [contains], every point that [a] or [b]
    contains; and every box with no negative extent that contains those
    points contains the points of [a | b]. *)
Theorem or_covers_both (a b : Box.t) :
  nonneg a -> nonneg b ->
  exists u,
    Box.__or__ a b = Ok u /\ nonneg u
    /\ (forall p, Box.contains a p = Ok true -> Box.contains u p = Ok true)
    /\ (forall p, Box.contains b p = Ok true -> Box.contains u p = Ok true)
    /\ (forall c, nonneg c ->
          (forall p, Box.contains a p = Ok true -> Box.contains c p = Ok true) ->
          (forall p, Box.contains b p = Ok true -> Box.contains c p = Ok true) ->
          forall p, Box.contains u p = Ok true -> Box.contains c p = Ok true).
Proof.
  intros Ha Hb. rewrite (or_nonneg a b Ha Hb). eexists. split; [reflexivity|].
  destruct Ha as (A0 & A1 & A2), Hb as (B0 & B1 & B2).
  destruct a as [[[a0 a1] a2] [[p0 p1] p2]], b as [[[b0 b1] b2] [[q0 q1] q2]].
  unbox.
  split; [split; [|split]; apply join_extent; assumption|].
  split; [|split].
  - intros p. rewrite !contains_true. intros (z & y & x & rest & Hp & Hin).
    exists z, y, x, rest. split; [exact Hp|]. unbox.
    destruct Hin as (I0 & I1 & I2).
    split; [|split]; apply join_covers_l; assumption.
  - intros p. rewrite !contains_true. intros (z & y & x & rest & Hp & Hin).
    exists z, y, x, rest. split; [exact Hp|]. unbox.
    destruct Hin as (I0 & I1 & I2).
    split; [|split]; apply join_covers_r; assumption.
  - intros c Hc Hca Hcb p.
    pose proof (Hca [p0; p1; p2]) as C1.
    pose proof (Hca [p0 + a0; p1 + a1; p2 + a2]%Z) as C2.
    pose proof (Hcb [q0; q1; q2]) as D1.
    pose proof (Hcb [q0 + b0; q1 + b1; q2 + b2]%Z) as D2.
    rewrite !contains_true in C1, C2, D1, D2. rewrite !contains_true.
    destruct C1 as (? & ? & ? & ? & [= <- <- <- <-] & C1);
      [eexists _, _, _, _; split; [reflexivity|unbox; lia]|].
    destruct C2 as (? & ? & ? & ? & [= <- <- <- <-] & C2);
      [eexists _, _, _, _; split; [reflexivity|unbox; lia]|].
    destruct D1 as (? & ? & ? & ? & [= <- <- <- <-] & D1);
      [eexists _, _, _, _; split; [reflexivity|unbox; lia]|].
    destruct D2 as (? & ? & ? & ? & [= <- <- <- <-] & D2);
      [eexists _, _, _, _; split; [reflexivity|unbox; lia]|].
    intros (z & y & x & rest & Hp & Hin).
    exists z, y, x, rest. split; [exact Hp|].
    destruct c as [[[c0 c1] c2] [[r0 r1] r2]]. unbox.
    destruct C1 as (C10 & C11 & C12), C2 as (C20 & C21 & C22),
      D1 as (D10 & D11 & D12), D2 as (D20 & D21 & D22), Hin as (I0 & I1 & I2).
    split; [|split].
    + exact (join_least p0 a0 q0 b0 r0 c0 z C10 C20 D10 D20 I0).
    + exact (join_least p1 a1 q1 b1 r1 c1 y C11 C21 D11 D21 I1).
    + exact (join_least p2 a2 q2 b2 r2 c2 x C12 C22 D12 D22 I2).
Qed.

(** X2. On boxes with no negative extent, [|] and [&] are
    commutative and idempotent, and [a & (a | b)] is [a]. *)
Theorem or_and_laws (a b : Box.t) :
  nonneg a -> nonneg b ->
  Box.__or__ a b = Box.__or__ b a
  /\ Box.__and__ a b = Box.__and__ b a
  /\ Box.__or__ a a = Ok a
  /\ Box.__and__ a a = Ok a
  /\ (let! u := Box.__or__ a b in Box.__and__ a u) = Ok a.
Proof.
  intros Ha Hb.
  rewrite (or_nonneg a b Ha Hb), (or_nonneg b a Hb Ha), (or_nonneg a a Ha Ha).
  cbn [Py.bind]. rewrite !and_closed.
  destruct Ha as (A0 & A1 & A2), Hb as (B0 & B1 & B2).
  destruct a as [[[a0 a1] a2] [[p0 p1] p2]], b as [[[b0 b1] b2] [[q0 q1] q2]].
  unfold meet. unbox.
  split; [|split; [|split; [|split]]].
  - rewrite (Z.min_comm q0 p0), (Z.min_comm q1 p1), (Z.min_comm q2 p2),
      (Z.max_comm (q0 + b0) (p0 + a0)), (Z.max_comm (q1 + b1) (p1 + a1)),
      (Z.max_comm (q2 + b2) (p2 + a2)).
    reflexivity.
  - rewrite (meet_lo_comm q0), (meet_lo_comm q1), (meet_lo_comm q2),
      (meet_hi_comm q0), (meet_hi_comm q1), (meet_hi_comm q2).
    reflexivity.
  - destruct (join_self p0 a0 A0) as [-> ->].
    destruct (join_self p1 a1 A1) as [-> ->].
    destruct (join_self p2 a2 A2) as [-> ->].
    reflexivity.
  - destruct (meet_self p0 a0 A0) as [-> ->].
    destruct (meet_self p1 a1 A1) as [-> ->].
    destruct (meet_self p2 a2 A2) as [-> ->].
    reflexivity.
  - destruct (meet_join p0 a0 q0 b0 A0 B0) as [-> ->].
    destruct (meet_join p1 a1 q1 b1 A1 B1) as [-> ->].
    destruct (meet_join p2 a2 q2 b2 A2 B2) as [-> ->].
    reflexivity.
Qed.

(** X3. When two boxes meet on every axis, [a & b] is their
    intersection: it has no negative extent, its origin is the
    componentwise maximum of the two origins, and a position lies in its
    half-open footprint exactly when it lies in both footprints. *)
Theorem and_of_meeting_boxes (a b : Box.t) :
  meeting a b ->
  exists r,
    Box.__and__ a b = Ok r /\ nonneg r
    /\ Box.origin r
       = (Z.max (Box.front a) (Box.front b), Z.max (Box.bottom a) (Box.bottom b),
          Z.max (Box.left a) (Box.left b))
    /\ (forall z y x,
          in_box r [z; y; x] = in_box a [z; y; x] && in_box b [z; y; x]).
Proof.
  intros Hm. rewrite and_closed. eexists. split; [reflexivity|].
  destruct a as [[[a0 a1] a2] [[p0 p1] p2]], b as [[[b0 b1] b2] [[q0 q1] q2]].
  unfold meet, in_box. unbox. destruct Hm as (M0 & M1 & M2).
  destruct (meet_ordered _ _ _ _ M0) as [-> ->].
  destruct (meet_ordered _ _ _ _ M1) as [-> ->].
  destruct (meet_ordered _ _ _ _ M2) as [-> ->].
  split; [split; [|split]; apply Zle_minus_le_0; assumption|].
  split; [reflexivity|].
  intros z y x.
  rewrite (meet_axis p0 a0 q0 b0 z M0), (meet_axis p1 a1 q1 b1 y M1),
    (meet_axis p2 a2 q2 b2 x M2).
  generalize ((p0 <=? z)%Z && (z <? p0 + a0)%Z), ((q0 <=? z)%Z && (z <? q0 + b0)%Z),
    ((p1 <=? y)%Z && (y <? p1 + a1)%Z), ((q1 <=? y)%Z && (y <? q1 + b1)%Z),
    ((p2 <=? x)%Z && (x <? p2 + a2)%Z), ((q2 <=? x)%Z && (x <? q2 + b2)%Z).
  intros [] [] [] [] [] []; reflexivity.
Qed.

(** X4. [-=] by an offset of three entries commutes with [&] and
    with [|] applied to two boxes both shifted; [+=] and [-=] by the same
    offset undo each other; neither changes the shape. *)
Theorem shift_commutes (a b : Box.t) (o : Z * Z * Z) :
  Box.__and__ (Box.__isub__ a o) (Box.__isub__ b o)
  = (let! r := Box.__and__ a b in Ok (Box.__isub__ r o))
  /\ Box.__or__ (Box.__isub__ a o) (Box.__isub__ b o)
     = (let! r := Box.__or__ a b in Ok (Box.__isub__ r o))
  /\ Box.__iadd__ (Box.__isub__ a o) o = a
  /\ Box.__isub__ (Box.__iadd__ a o) o = a
  /\ Box.shape (Box.__isub__ a o) = Box.shape a.
Proof.
  destruct a as [[[a0 a1] a2] [[p0 p1] p2]], b as [[[b0 b1] b2] [[q0 q1] q2]],
    o as [[o0 o1] o2].
  rewrite !or_closed, !and_closed. cbn [Py.bind].
  unfold meet, Box.__isub__, Box.__iadd__. unbox.
  split; [|split; [|split; [|split]]].
  - rewrite !meet_lo_translate, !meet_hi_translate, !sub_translate.
    reflexivity.
  - rewrite !join_lo_translate, !join_hi_translate, !sub_translate.
    reflexivity.
  - do 2 f_equal; [f_equal|]; ring.
  - do 2 f_equal; [f_equal|]; ring.
  - reflexivity.
Qed.

(** X5. [Box(shape, origin)] raises [AssertionError] exactly when
    [shape] or [origin] has neither two nor three entries; otherwise it
    returns a box whose shape and origin are the arguments, a pair being
    given a leading 0. *)
Theorem init_accepts_2_or_3 (shape origin : list Z) :
  (Box.__init__ shape origin = Raise AssertionError
   <-> ~ ((length shape = 2 \/ length shape = 3)
          /\ (length origin = 2 \/ length origin = 3)))
  /\ ((length shape = 2 \/ length shape = 3) ->
      (length origin = 2 \/ length origin = 3) ->
      exists b, Box.__init__ shape origin = Ok b
        /\ Box.tuple (Box.shape b) = (if length shape =? 2 then 0%Z :: shape else shape)
        /\ Box.tuple (Box.origin b) = (if length origin =? 2 then 0%Z :: origin else origin)).
Proof.
  split.
  - destruct shape as [|s0 [|s1 [|s2 [|s3 shape]]]];
      destruct origin as [|o0 [|o1 [|o2 [|o3 origin]]]]; simpl;
      (split; [intros X; try discriminate X; lia | intros X; try reflexivity; exfalso; apply X; lia]).
  - intros Hs Ho.
    destruct shape as [|s0 [|s1 [|s2 [|s3 shape]]]]; simpl in Hs; try lia;
      destruct origin as [|o0 [|o1 [|o2 [|o3 origin]]]]; simpl in Ho; try lia;
      eexists; repeat split.
Qed.

(** ** Box: bounds and points *)

(** X6. [from_bounds], given the six bounds of a box, returns that
    box exactly when the box has no negative extent. *)
Theorem from_bounds_of_own_bounds (b : Box.t) :
  Box.from_bounds (Box.front b) (Box.back b) (Box.bottom b) (Box.top b)
                  (Box.left b) (Box.right b) = Ok b
  <-> nonneg b.
Proof.
  rewrite from_bounds_closed.
  destruct b as [[[s0 s1] s2] [[o0 o1] o2]].
  unfold nonneg, Box.C, Box.Ny, Box.Nx, Box.front, Box.back, Box.bottom,
    Box.top, Box.left, Box.right; simpl.
  split.
  - intros [= E0 E1 E2 E3 E4 E5]. lia.
  - intros (H0 & H1 & H2). do 2 f_equal; repeat (apply (f_equal2 pair)); lia.
Qed.

(** X7. Whatever the two boxes, also ones of negative extent,
    [|] and [&] raise nothing and return a box with no negative
    extent. *)
Theorem algebra_never_negative (a b : Box.t) :
  (exists u, Box.__or__ a b = Ok u /\ nonneg u)
  /\ (exists i, Box.__and__ a b = Ok i /\ nonneg i).
Proof.
  unfold Box.__or__, Box.__and__. rewrite !from_bounds_closed.
  repeat split; eexists; (split; [reflexivity|]);
    unfold nonneg, Box.C, Box.Ny, Box.Nx; simpl; lia.
Qed.

(** X8. [contains] raises [IndexError] on the empty point; on a point
    of one coordinate it answers [False] when the coordinate lies outside
    the depth of the box and raises [IndexError] otherwise; coordinates
    after the third are not read. *)
Theorem contains_arity (b : Box.t) (z y x w : Z) (rest : list Z) :
  Box.contains b [] = Raise IndexError
  /\ Box.contains b [z]
     = (if (z <? Box.front b)%Z || (z >? Box.back b)%Z
        then Ok false else Raise IndexError)
  /\ Box.contains b (z :: y :: x :: w :: rest) = Box.contains b [z; y; x].
Proof.
  destruct b as [[[s0 s1] s2] [[o0 o1] o2]].
  unfold Box.contains, Box.front, Box.back; simpl.
  repeat split; reflexivity.
Qed.

(** ** Box: slices of an array *)

(** [slices_for]: the range of an axis of length [n] that the slice of a
    box with origin [o] and extent [m] selects. *)
Lemma slice_axis (o : Z) (m n k : nat) :
  k < n ->
  let r := np.indices (Box.slice_of
                         (meet_lo o (o + Z.of_nat m) 0 (0 + Z.of_nat n))
                         (meet_back o (o + Z.of_nat m) 0 (0 + Z.of_nat n))) n in
  (covers r k = true <-> (o <= Z.of_nat k < o + Z.of_nat m)%Z)
  /\ (covers r k = true -> k - r.1 = k - Z.to_nat o).
Proof.
  intros Hk r. subst r. rewrite !meet_back_hi, !Z.add_0_l.
  destruct (clip o (o + Z.of_nat m) (Z.of_nat n)) as (S1 & S2 & S3);
    [lia | lia |].
  rewrite !indices_slice_of. cbv zeta in S1, S2, S3.
  rewrite covers_spec. cbn [fst snd].
  forget_adjust. split; [|intros X]; lia.
Qed.

Lemma locate3 a0 n0 a1 n1 a2 n2 z y x :
  np.locate [np.Range a0 n0; np.Range a1 n1; np.Range a2 n2] [z; y; x]
  = if covers (a0, n0) z && covers (a1, n1) y && covers (a2, n2) x
    then Some [z - a0; y - a1; x - a2] else None.
Proof.
  unfold covers; simpl.
  destruct ((a0 <=? z) && (z <? a0 + n0)); simpl; [|reflexivity].
  destruct ((a1 <=? y) && (y <? a1 + n1)); simpl; [|reflexivity].
  destruct ((a2 <=? x) && (x <? a2 + n2)); simpl; reflexivity.
Qed.

Lemma locate2 a1 n1 a2 n2 y x :
  np.locate [np.Range a1 n1; np.Range a2 n2] [y; x]
  = if covers (a1, n1) y && covers (a2, n2) x
    then Some [y - a1; x - a2] else None.
Proof.
  unfold covers; simpl.
  destruct ((a1 <=? y) && (y <? a1 + n1)); simpl; [|reflexivity].
  destruct ((a2 <=? x) && (x <? a2 + n2)); simpl; reflexivity.
Qed.

Lemma covers_eta r k : covers (r.1, r.2) k = covers r k.
Proof. destruct r; reflexivity. Qed.


Section Slices.
Context {V : Type} `{np.Elem V}.

(** X9. For a box with no negative extent and an array of two or
    three axes, [slices_for] returns the same slices for the array and
    for its shape; they resolve against the shape of the array without
    error, and the view they cut out holds exactly the elements whose
    index lies in the footprint of the box, the element at an index
    being found at that index counted from the origin of the box (from 0
    where the origin is negative). *)
Theorem slices_for_selects_box (R : Box.t) (a : np.ndarray V) :
  nonneg R -> np.ndim a = 2 \/ np.ndim a = 3 ->
  exists sl axes,
    Box.slices_for R (Box.Im a) = Ok sl
    /\ Box.slices_for (V:=V) R (Box.Shape (Z.of_nat <$> np.shape a)) = Ok sl
    /\ np.resolve (np.shape a) (np.Idx <$> sl) = Ok axes
    /\ forall idx, np.inb (np.shape a) idx = true ->
         np.locate axes idx
         = if inside R idx then Some (from_origin R idx) else None.
Proof.
  intros (H0 & H1 & H2) Hnd.
  destruct R as [[[s0 s1] s2] [[o0 o1] o2]].
  unfold nonneg, Box.C, Box.Ny, Box.Nx, np.ndim in *; simpl in *.
  apply Z_of_nat_complete in H0 as [m0 ->], H1 as [m1 ->], H2 as [m2 ->].
  destruct Hnd as [Hnd|Hnd].
  - destruct (np.shape a) as [|h [|w [|]]] eqn:Ha; try discriminate Hnd.
    unfold Box.slices_for. rewrite Ha. simpl. rewrite and_closed. simpl.
    eexists _, _. split; [reflexivity|]. split; [reflexivity|].
    split; [reflexivity|].
    intros idx Hin. pose proof (inb_length [h; w] idx Hin) as Hlen.
    destruct idx as [|y [|x [|]]]; try discriminate Hlen.
    apply (inb2 h w) in Hin as (Hy & Hx).
    destruct (slice_axis o1 m1 h y Hy) as [C1 D1].
    destruct (slice_axis o2 m2 w x Hx) as [C2 D2].
    cbv zeta in C1, D1, C2, D2.
    match type of C1 with covers ?r _ = _ <-> _ => set (r1 := r) in * end.
    match type of C2 with covers ?r _ = _ <-> _ => set (r2 := r) in * end.
    match goal with
    | |- _ = ?rhs =>
        change (np.locate [np.Range r1.1 r1.2; np.Range r2.1 r2.2] [y; x] = rhs)
    end.
    clearbody r1 r2.
    rewrite locate2, !covers_eta.
    unfold inside, from_origin, offsets, dims; simpl.
    match goal with
    | |- (if ?c then _ else _) = (if ?d then _ else _) =>
        replace d with c; [destruct c eqn:E; [|reflexivity]|]
    end.
    + apply andb_true_iff in E as [E1 E2].
      rewrite (D1 E1), (D2 E2). reflexivity.
    + apply eq_true_iff_eq.
      rewrite ?andb_true_iff, C1, C2, ?Z.leb_le, ?Z.ltb_lt. intuition lia.
  - destruct (np.shape a) as [|c [|h [|w [|]]]] eqn:Ha; try discriminate Hnd.
    unfold Box.slices_for. rewrite Ha. simpl. rewrite and_closed. simpl.
    eexists _, _. split; [reflexivity|]. split; [reflexivity|].
    split; [reflexivity|].
    intros idx Hin. pose proof (inb_length [c; h; w] idx Hin) as Hlen.
    destruct idx as [|z [|y [|x [|]]]]; try discriminate Hlen.
    apply (inb3 c h w) in Hin as (Hz & Hy & Hx).
    destruct (slice_axis o0 m0 c z Hz) as [C0 D0].
    destruct (slice_axis o1 m1 h y Hy) as [C1 D1].
    destruct (slice_axis o2 m2 w x Hx) as [C2 D2].
    cbv zeta in C0, D0, C1, D1, C2, D2.
    match type of C0 with covers ?r _ = _ <-> _ => set (r0 := r) in * end.
    match type of C1 with covers ?r _ = _ <-> _ => set (r1 := r) in * end.
    match type of C2 with covers ?r _ = _ <-> _ => set (r2 := r) in * end.
    match goal with
    | |- _ = ?rhs =>
        change (np.locate [np.Range r0.1 r0.2; np.Range r1.1 r1.2;
                           np.Range r2.1 r2.2] [z; y; x] = rhs)
    end.
    clearbody r0 r1 r2.
    rewrite locate3, !covers_eta.
    unfold inside, from_origin, offsets, dims; simpl.
    match goal with
    | |- (if ?c then _ else _) = (if ?d then _ else _) =>
        replace d with c; [destruct c eqn:E; [|reflexivity]|]
    end.
    + apply andb_true_iff in E as [E E2]. apply andb_true_iff in E as [E0 E1].
      rewrite (D0 E0), (D1 E1), (D2 E2). reflexivity.
    + apply eq_true_iff_eq.
      rewrite ?andb_true_iff, C0, C1, C2, ?Z.leb_le, ?Z.ltb_lt. intuition lia.
Qed.

(** X10. For an array of two or three axes [Box.from_image] returns a
    box at the origin (0, 0, 0) whose extents, on the axes the array has,
    are the shape of the array, with depth 0 for an array of two axes; a
    position lies in the half-open footprint of the box, on those axes,
    exactly when it lies in the extent of the array. *)
Theorem from_image_extent (a : np.ndarray V) :
  np.ndim a = 2 \/ np.ndim a = 3 ->
  exists b,
    Box.from_image a = Ok b
    /\ Box.origin b = (0, 0, 0)%Z
    /\ dims b (np.ndim a) = Z.of_nat <$> np.shape a
    /\ (np.ndim a = 2 -> Box.C b = 0%Z)
    /\ forall p, within p (offsets b (np.ndim a)) (dims b (np.ndim a))
                 = inZ (np.shape a) p.
Proof.
  unfold np.ndim, Box.from_image. intros [Hnd|Hnd].
  - destruct (np.shape a) as [|h [|w [|]]]; try discriminate Hnd.
    eexists. split; [reflexivity|]. split; [reflexivity|].
    split; [reflexivity|]. split; [reflexivity|].
    intros [|y [|x [|? ?]]]; unfold offsets, dims; simpl;
      rewrite ?andb_true_r; try reflexivity;
      repeat (destruct (_ && _); simpl; try reflexivity).
  - destruct (np.shape a) as [|c [|h [|w [|]]]]; try discriminate Hnd.
    eexists. split; [reflexivity|]. split; [reflexivity|].
    split; [reflexivity|]. split; [discriminate|].
    intros [|z [|y [|x [|? ?]]]]; unfold offsets, dims; simpl;
      rewrite ?andb_true_r; try reflexivity;
      repeat (destruct (_ && _); simpl; try reflexivity).
Qed.

(** X11. For an array whose number of axes is neither two nor three,
    [from_image], [slices_for], [extract_from] and [insert_into] raise
    [AssertionError] when it is the image, and [extract_from] and
    [insert_into] raise [AssertionError] when it is the buffer of an
    image of two or three axes. *)
Theorem bad_rank_raises (R : Box.t) (a other : np.ndarray V)
    (sub : option (np.ndarray V)) :
  np.ndim a <> 2 -> np.ndim a <> 3 ->
  Box.from_image a = Raise AssertionError
  /\ Box.slices_for R (Box.Im a) = Raise AssertionError
  /\ Box.extract_from R a sub = Raise AssertionError
  /\ Box.insert_into R a other = Raise AssertionError
  /\ (np.ndim other = 2 \/ np.ndim other = 3 ->
      Box.extract_from R other (Some a) = Raise AssertionError
      /\ Box.insert_into R other a = Raise AssertionError).
Proof.
  intros N2 N3. unfold np.ndim in *.
  assert (Hi : Box.from_image a = Raise AssertionError).
  { unfold Box.from_image.
    destruct (np.shape a) as [|? [|? [|? [|? ?]]]]; simpl in *;
      try reflexivity; lia. }
  split; [exact Hi|]. split; [|split; [|split]].
  - unfold Box.slices_for. rewrite length_fmap.
    destruct (np.shape a) as [|? [|? [|? [|? ?]]]]; simpl in *;
      try reflexivity; lia.
  - unfold Box.extract_from. rewrite Hi. reflexivity.
  - unfold Box.insert_into. rewrite Hi. reflexivity.
  - intros Ho. unfold Box.extract_from, Box.insert_into. rewrite Hi.
    assert (exists b, Box.from_image other = Ok b) as [b ->].
    { unfold Box.from_image.
      destruct Ho as [Ho|Ho];
        destruct (np.shape other) as [|? [|? [|? [|? ?]]]];
        try discriminate Ho; eexists; reflexivity. }
    cbn [Py.bind]. rewrite Hi. split; reflexivity.
Qed.

End Slices.

(** ** Box: transfers into a buffer and back *)

Section MoreTransfers.
Context {V : Type} `{np.Elem V}.
Implicit Types (a b : np.ndarray V).

(** Two well-formed arrays of one shape with the same elements hold the
    same buffer. *)
Lemma buf_ext a b :
  np.wf a = true -> np.wf b = true -> np.shape a = np.shape b ->
  (forall idx, np.inb (np.shape a) idx = true -> np.item a idx = np.item b idx) ->
  np.buf a = np.buf b.
Proof.
  intros Ha Hb Hsh Hit.
  rewrite <- (tabulate_get a Ha), <- (tabulate_get b Hb), Hsh.
  apply tabulate_ext. intros idx Hin. unfold np.get.
  rewrite Hit by (rewrite Hsh; exact Hin). reflexivity.
Qed.

(** [extract_from] into a buffer the caller supplies. *)
Lemma extract3_into (R : Box.t) (S B : np.ndarray V) c h w :
  nonneg R -> np.wf S = true -> np.shape S = [c; h; w] ->
  np.shape B = Z.to_nat <$> Box.tuple (Box.shape R) ->
  exists sub,
    Box.extract_from R S (Some B) = Ok sub
    /\ np.shape sub = np.shape B
    /\ np.dtype sub = np.dtype B
    /\ np.wf sub = true
    /\ forall idx, np.inb (np.shape B) idx = true ->
         np.item sub idx
         = Some (from_option id (np.get B idx)
                   (pixel S (shift idx (Box.tuple (Box.origin R))))).
Proof.
  intros (H0 & H1 & H2) Hwf HS HB.
  destruct R as [[[s0 s1] s2] [[o0 o1] o2]].
  unfold nonneg, Box.C, Box.Ny, Box.Nx in *; simpl in *.
  apply Z_of_nat_complete in H0 as [m0 ->], H1 as [m1 ->], H2 as [m2 ->].
  rewrite !Nat2Z.id in HB.
  unfold Box.extract_from, Box.from_image. rewrite HS. simpl.
  rewrite !HB. simpl. rewrite and_closed. simpl.
  unfold Box.slices_for. rewrite HS, HB. simpl. rewrite !and_closed. simpl.
  pose proof (extract_axis o0 m0 c) as A0. name_ranges A0 d0 r0.
  pose proof (extract_axis o1 m1 h) as A1. name_ranges A1 d1 r1.
  pose proof (extract_axis o2 m2 w) as A2. name_ranges A2 d2 r2.
  match goal with
  | |- exists sub,
        (let! v := np.getitem ?b ?ixs in np.setitem ?a ?ixd v) = Ok sub /\ _ =>
      destruct (transfer a b ixd ixs
                  [np.Range d0.1 d0.2; np.Range d1.1 d1.2; np.Range d2.1 d2.2]
                  [np.Range r0.1 r0.2; np.Range r1.1 r1.2; np.Range r2.1 r2.2])
        as (r & Hr & Hsh & Hdt & Hwfr & Hit)
  end.
  - rewrite HB. reflexivity.
  - rewrite HS. reflexivity.
  - change ([d0.2; d1.2; d2.2] = [r0.2; r1.2; r2.2]).
    destruct A0 as [-> _], A1 as [-> _], A2 as [-> _]. reflexivity.
  - exists r. rewrite HB in Hsh, Hit.
    split; [exact Hr|]. split; [exact Hsh|]. split; [exact Hdt|].
    split; [exact Hwfr|].
    intros idx Hin. rewrite (Hit idx Hin).
    pose proof (inb_length [m0; m1; m2] idx Hin) as Hlen.
    destruct idx as [|z [|y [|x [|]]]]; try discriminate Hlen.
    apply (inb3 m0 m1 m2) in Hin as (Hz & Hy & Hx).
    f_equal.
    apply (aligned3 S c h w o0 o1 o2 m0 m1 m2); assumption.
Qed.

Lemma extract2_into (R : Box.t) (S B : np.ndarray V) h w :
  nonneg R -> np.wf S = true -> np.shape S = [h; w] ->
  np.shape B = Z.to_nat <$> tail (Box.tuple (Box.shape R)) ->
  exists sub,
    Box.extract_from R S (Some B) = Ok sub
    /\ np.shape sub = np.shape B
    /\ np.dtype sub = np.dtype B
    /\ np.wf sub = true
    /\ forall idx, np.inb (np.shape B) idx = true ->
         np.item sub idx
         = Some (from_option id (np.get B idx)
                   (pixel S (shift idx (tail (Box.tuple (Box.origin R)))))).
Proof.
  intros (H0 & H1 & H2) Hwf HS HB.
  destruct R as [[[s0 s1] s2] [[o0 o1] o2]].
  unfold nonneg, Box.C, Box.Ny, Box.Nx in *; simpl in *.
  apply Z_of_nat_complete in H1 as [m1 ->], H2 as [m2 ->].
  rewrite !Nat2Z.id in HB.
  unfold Box.extract_from, Box.from_image. rewrite HS. simpl.
  rewrite !HB. simpl. rewrite and_closed. simpl.
  unfold Box.slices_for. rewrite HS, HB. simpl. rewrite !and_closed. simpl.
  pose proof (extract_axis o1 m1 h) as A1. name_ranges A1 d1 r1.
  pose proof (extract_axis o2 m2 w) as A2. name_ranges A2 d2 r2.
  match goal with
  | |- exists sub,
        (let! v := np.getitem ?b ?ixs in np.setitem ?a ?ixd v) = Ok sub /\ _ =>
      destruct (transfer a b ixd ixs
                  [np.Range d1.1 d1.2; np.Range d2.1 d2.2]
                  [np.Range r1.1 r1.2; np.Range r2.1 r2.2])
        as (r & Hr & Hsh & Hdt & Hwfr & Hit)
  end.
  - rewrite HB. reflexivity.
  - rewrite HS. reflexivity.
  - change ([d1.2; d2.2] = [r1.2; r2.2]).
    destruct A1 as [-> _], A2 as [-> _]. reflexivity.
  - exists r. rewrite HB in Hsh, Hit.
    split; [exact Hr|]. split; [exact Hsh|]. split; [exact Hdt|].
    split; [exact Hwfr|].
    intros idx Hin. rewrite (Hit idx Hin).
    pose proof (inb_length [m1; m2] idx Hin) as Hlen.
    destruct idx as [|y [|x [|]]]; try discriminate Hlen.
    apply (inb2 m1 m2) in Hin as (Hy & Hx).
    f_equal.
    apply (aligned2 S h w o1 o2 m1 m2); assumption.
Qed.




End MoreTransfers.

(** ** [from_data] *)

Lemma amin_spec x l :
  foldr Nat.min x l ∈ x :: l /\ forall y, y ∈ x :: l -> foldr Nat.min x l <= y.
Proof.
  induction l as [|a l [IH1 IH2]]; simpl.
  - split; [left|]. intros y Hy. apply list_elem_of_singleton in Hy. lia.
  - split.
    + destruct (Nat.min_spec a (foldr Nat.min x l)) as [[_ ->]|[_ ->]].
      * right; left.
      * apply elem_of_cons in IH1 as [E|E]; [rewrite E; left|].
        right; right; exact E.
    + intros y Hy. apply elem_of_cons in Hy as [->|Hy].
      * specialize (IH2 x ltac:(left)). lia.
      * apply elem_of_cons in Hy as [->|Hy]; [lia|].
        specialize (IH2 y ltac:(right; exact Hy)). lia.
Qed.

Lemma amax_spec x l :
  foldr Nat.max x l ∈ x :: l /\ forall y, y ∈ x :: l -> y <= foldr Nat.max x l.
Proof.
  induction l as [|a l [IH1 IH2]]; simpl.
  - split; [left|]. intros y Hy. apply list_elem_of_singleton in Hy. lia.
  - split.
    + destruct (Nat.max_spec a (foldr Nat.max x l)) as [[_ ->]|[_ ->]].
      * apply elem_of_cons in IH1 as [E|E]; [rewrite E; left|].
        right; right; exact E.
      * right; left.
    + intros y Hy. apply elem_of_cons in Hy as [->|Hy].
      * specialize (IH2 x ltac:(left)). lia.
      * apply elem_of_cons in Hy as [->|Hy]; [lia|].
        specialize (IH2 y ltac:(right; exact Hy)). lia.
Qed.

Lemma amin_ok (a : list nat) :
  a <> [] ->
  exists lo, np.amin a = Ok lo /\ lo ∈ a /\ forall y, y ∈ a -> lo <= y.
Proof.
  destruct a as [|x l]; [congruence|]. intros _.
  eexists. split; [reflexivity|]. apply amin_spec.
Qed.

Lemma amax_ok (a : list nat) :
  a <> [] ->
  exists hi, np.amax a = Ok hi /\ hi ∈ a /\ forall y, y ∈ a -> y <= hi.
Proof.
  destruct a as [|x l]; [congruence|]. intros _.
  eexists. split; [reflexivity|]. apply amax_spec.
Qed.

Section Thresholds.
Context {V : Type} `{np.Elem V} `{np.Ord V}.

Lemma item_greater (X : np.ndarray V) v idx :
  np.item (np.greater X v) idx = (fun x => np.gt x v) <$> np.item X idx.
Proof.
  unfold np.item, np.greater; simpl.
  destruct (np.inb _ _); [|reflexivity]. apply list_lookup_fmap.
Qed.

Lemma hits_spec (sel : np.ndarray bool) idx :
  idx ∈ np.hits sel
  <-> np.inb (np.shape sel) idx = true /\ np.item sel idx = Some true.
Proof.
  unfold np.hits. rewrite list_elem_of_filter, list_elem_of_fmap.
  split.
  - intros (Hit & k & -> & Hk). apply elem_of_seq in Hk.
    split; [apply inb_unravel; lia | exact Hit].
  - intros (Hin & Hit). split; [exact Hit|].
    exists (np.ravel (np.shape sel) idx). split.
    + symmetry. apply unravel_ravel. exact Hin.
    + apply elem_of_seq. pose proof (ravel_lt _ _ Hin). lia.
Qed.

Lemma any_spec (sel : np.ndarray bool) :
  np.wf sel = true ->
  (np.any sel = true <-> exists idx, idx ∈ np.hits sel).
Proof.
  intros Hwf. apply Nat.eqb_eq in Hwf. unfold np.any.
  rewrite existsb_exists. split.
  - intros (x & Hx & Hid). destruct x; [|discriminate Hid].
    apply list_elem_of_In, list_elem_of_lookup in Hx as [k Hk].
    exists (np.unravel (np.shape sel) k).
    pose proof (lookup_lt_Some _ _ _ Hk) as Hlt. rewrite Hwf in Hlt.
    apply hits_spec. split; [apply inb_unravel; exact Hlt|].
    unfold np.item. rewrite inb_unravel, ravel_unravel by exact Hlt. exact Hk.
  - intros (idx & Hidx). apply hits_spec in Hidx as (Hin & Hit).
    exists true. split; [|reflexivity].
    unfold np.item in Hit. rewrite Hin in Hit.
    apply list_elem_of_In, list_elem_of_lookup. eexists. exact Hit.
Qed.

Lemma wf_greater (X : np.ndarray V) v :
  np.wf X = true -> np.wf (np.greater X v) = true.
Proof. unfold np.wf, np.greater; simpl. rewrite length_fmap. trivial. Qed.

Lemma hits_above (X : np.ndarray V) v idx :
  idx ∈ np.hits (np.greater X v) <-> above X v idx.
Proof.
  rewrite hits_spec, item_greater. unfold above. simpl.
  split; intros (Hin & Hit); (split; [exact Hin|]).
  - destruct (np.item X idx) as [e|]; [|discriminate Hit].
    exists e. split; [reflexivity|]. injection Hit as ->. reflexivity.
  - destruct Hit as (e & -> & Hgt). simpl. rewrite Hgt. reflexivity.
Qed.

(** The bounds the loop computes on one axis. *)
Lemma column_bounds (hits : list (list nat)) (d : nat) :
  hits <> [] ->
  exists lo hi,
    np.amin ((fun idx => default 0 (idx !! d)) <$> hits) = Ok lo
    /\ np.amax ((fun idx => default 0 (idx !! d)) <$> hits) = Ok hi
    /\ (exists idx, idx ∈ hits /\ default 0 (idx !! d) = lo)
    /\ (exists idx, idx ∈ hits /\ default 0 (idx !! d) = hi)
    /\ forall idx, idx ∈ hits -> lo <= default 0 (idx !! d) <= hi.
Proof.
  intros Hne.
  assert (Hcol : (fun idx : list nat => default 0 (idx !! d)) <$> hits <> [])
    by (destruct hits; [congruence|discriminate]).
  destruct (amin_ok _ Hcol) as (lo & Elo & Hlo & Hmin).
  destruct (amax_ok _ Hcol) as (hi & Ehi & Hhi & Hmax).
  exists lo, hi. split; [exact Elo|]. split; [exact Ehi|].
  apply list_elem_of_fmap in Hlo as (i1 & E1 & H1).
  apply list_elem_of_fmap in Hhi as (i2 & E2 & H2).
  split; [exists i1; split; [exact H1 | symmetry; exact E1]|].
  split; [exists i2; split; [exact H2 | symmetry; exact E2]|].
  intros idx Hidx.
  assert (default 0 (idx !! d)
          ∈ (fun idx : list nat => default 0 (idx !! d)) <$> hits)
    by (apply list_elem_of_fmap; exists idx; split; [reflexivity|exact Hidx]).
  split; [apply Hmin | apply Hmax]; assumption.
Qed.


Lemma from_bounds_ordered (f k bo t l r : Z) :
  (f <= k)%Z -> (bo <= t)%Z -> (l <= r)%Z ->
  Box.from_bounds f k bo t l r
  = Ok (Box.Box (k - f, t - bo, r - l)%Z (f, bo, l)).
Proof.
  intros. rewrite from_bounds_closed.
  do 2 f_equal; repeat (apply (f_equal2 pair)); lia.
Qed.

Lemma bounds_loop3 (c0 c1 c2 : list nat) l0 h0 l1 h1 l2 h2 :
  np.amin c0 = Ok l0 -> np.amax c0 = Ok h0 ->
  np.amin c1 = Ok l1 -> np.amax c1 = Ok h1 ->
  np.amin c2 = Ok l2 -> np.amax c2 = Ok h2 ->
  Box.bounds_loop [c0; c1; c2] [0; 1; 2]
  = Ok [Z.of_nat l0; (Z.of_nat h0 + 1)%Z; Z.of_nat l1; (Z.of_nat h1 + 1)%Z;
        Z.of_nat l2; (Z.of_nat h2 + 1)%Z].
Proof.
  intros E0 F0 E1 F1 E2 F2. simpl. rewrite E0, F0, E1, F1, E2, F2. reflexivity.
Qed.

Lemma bounds_loop2 (c1 c2 : list nat) l1 h1 l2 h2 :
  np.amin c1 = Ok l1 -> np.amax c1 = Ok h1 ->
  np.amin c2 = Ok l2 -> np.amax c2 = Ok h2 ->
  Box.bounds_loop [c1; c2] [0; 1]
  = Ok [Z.of_nat l1; (Z.of_nat h1 + 1)%Z; Z.of_nat l2; (Z.of_nat h2 + 1)%Z].
Proof.
  intros E1 F1 E2 F2. simpl. rewrite E1, F1, E2, F2. reflexivity.
Qed.

(** X15. When no element of a well-formed array is above the
    threshold, [from_data] returns the box of shape (0, 0, 0) at the
    origin (0, 0, 0), whatever the number of axes. *)
Theorem from_data_nothing_above (X : np.ndarray V) (v : V) :
  np.wf X = true -> (forall idx, ~ above X v idx) ->
  Box.from_data X v = Ok (Box.Box (0, 0, 0)%Z (0, 0, 0)%Z).
Proof.
  intros Hwf Hno. unfold Box.from_data.
  replace (np.any (np.greater X v)) with false; [reflexivity|].
  symmetry. apply not_true_is_false. intros Hany.
  apply any_spec in Hany as (idx & Hidx); [|apply wf_greater; exact Hwf].
  apply hits_above in Hidx. exact (Hno idx Hidx).
Qed.

(** X16. When a well-formed array of two or three axes has an element
    above the threshold, [from_data] raises nothing and returns a box
    with no negative extent that lies within the extent of the array,
    whose footprint holds the index of every element above the
    threshold, and that is the smallest such: a box whose footprint holds
    all those indices holds every index of the footprint of the returned
    box. For an array of two axes the box has front 0 and depth 0. *)
Theorem from_data_bounds (X : np.ndarray V) (v : V) (i0 : list nat) :
  np.wf X = true -> np.ndim X = 2 \/ np.ndim X = 3 -> above X v i0 ->
  exists b,
    Box.from_data X v = Ok b
    /\ nonneg b
    /\ fits b X = true
    /\ (np.ndim X = 2 -> Box.front b = 0%Z /\ Box.C b = 0%Z)
    /\ (forall idx, above X v idx -> inside b idx = true)
    /\ (forall c, (forall idx, above X v idx -> inside c idx = true) ->
          forall idx, length idx = np.ndim X ->
            inside b idx = true -> inside c idx = true).
Proof.
  intros Hwf Hnd Hi0.
  assert (Hany : np.any (np.greater X v) = true).
  { apply any_spec; [apply wf_greater; exact Hwf|].
    exists i0. apply hits_above. exact Hi0. }
  assert (Hne : np.hits (np.greater X v) <> []).
  { apply hits_above in Hi0. intros E. rewrite E in Hi0.
    apply not_elem_of_nil in Hi0. exact Hi0. }
  assert (Hab : forall idx, above X v idx <-> idx ∈ np.hits (np.greater X v))
    by (intros idx; symmetry; apply hits_above).
  assert (Hinb : forall idx, idx ∈ np.hits (np.greater X v) ->
                   np.inb (np.shape X) idx = true).
  { intros idx Hidx. apply hits_spec in Hidx as [Hidx _]. exact Hidx. }
  setoid_rewrite Hab. clear Hi0 Hab.
  unfold Box.from_data, np.where_, fits, np.ndim in *. rewrite Hany.
  destruct X as [sh bf dt]. cbn [np.shape np.greater] in *.
  set (hits := np.hits _) in *. clearbody hits.
  destruct Hnd as [Hnd|Hnd].
  - destruct sh as [|h [|w [|]]]; try discriminate Hnd.
    destruct (column_bounds hits 0 Hne)
      as (l1 & h1 & El1 & Eh1 & (a1 & Ha1 & Ea1) & (b1 & Hb1 & Eb1) & B1).
    destruct (column_bounds hits 1 Hne)
      as (l2 & h2 & El2 & Eh2 & (a2 & Ha2 & Ea2) & (b2 & Hb2 & Eb2) & B2).
    change (seq 0 (length [h; w])) with [0; 1].
    cbn [fmap list_fmap].
    rewrite (bounds_loop2 _ _ _ _ _ _ El1 Eh1 El2 Eh2).
    cbn [Py.bind length Nat.eqb].
    pose proof (B1 _ Ha1). pose proof (B2 _ Ha2).
    rewrite from_bounds_ordered by lia.
    eexists. split; [reflexivity|].
    assert (Hco : forall idx, idx ∈ hits ->
      exists y x, idx = [y; x] /\ y < h /\ x < w
                  /\ l1 <= y <= h1 /\ l2 <= x <= h2).
    { intros idx Hidx. pose proof (Hinb idx Hidx) as Hin.
      pose proof (inb_length [h; w] idx Hin) as Hlen.
      destruct idx as [|y [|x [|]]]; try discriminate Hlen.
      apply (inb2 h w) in Hin. specialize (B1 _ Hidx). specialize (B2 _ Hidx).
      simpl in B1, B2. exists y, x. repeat split; lia. }
    destruct (Hco _ Ha1) as (ya1 & xa1 & -> & Ga1).
    destruct (Hco _ Hb1) as (yb1 & xb1 & -> & Gb1).
    destruct (Hco _ Ha2) as (ya2 & xa2 & -> & Ga2).
    destruct (Hco _ Hb2) as (yb2 & xb2 & -> & Gb2).
    simpl in Ea1, Eb1, Ea2, Eb2. subst ya1 yb1 xa2 xb2.
    unfold nonneg, Box.C, Box.Ny, Box.Nx, Box.front, dims, offsets; simpl.
    split; [lia|]. split; [bool_lia|]. split; [intros _; split; reflexivity|].
    split.
    + intros idx Hidx. destruct (Hco _ Hidx) as (y & x & -> & G).
      unfold inside, dims, offsets; simpl.
      rewrite ?andb_true_iff, ?Z.leb_le, ?Z.ltb_lt. lia.
    + intros [[[c0 c1] c2] [[o0 o1] o2]] Hc idx Hlen.
      pose proof (Hc _ Ha1) as C1. pose proof (Hc _ Hb1) as C2.
      pose proof (Hc _ Ha2) as C3. pose proof (Hc _ Hb2) as C4.
      destruct idx as [|y [|x [|]]]; try discriminate Hlen.
      unfold inside, dims, offsets in *; simpl in *.
      rewrite ?andb_true_iff, ?Z.leb_le, ?Z.ltb_lt in *. lia.
  - destruct sh as [|c [|h [|w [|]]]]; try discriminate Hnd.
    destruct (column_bounds hits 0 Hne)
      as (l0 & h0 & El0 & Eh0 & (a0 & Ha0 & Ea0) & (b0 & Hb0 & Eb0) & B0).
    destruct (column_bounds hits 1 Hne)
      as (l1 & h1 & El1 & Eh1 & (a1 & Ha1 & Ea1) & (b1 & Hb1 & Eb1) & B1).
    destruct (column_bounds hits 2 Hne)
      as (l2 & h2 & El2 & Eh2 & (a2 & Ha2 & Ea2) & (b2 & Hb2 & Eb2) & B2).
    change (seq 0 (length [c; h; w])) with [0; 1; 2].
    cbn [fmap list_fmap].
    rewrite (bounds_loop3 _ _ _ _ _ _ _ _ _ El0 Eh0 El1 Eh1 El2 Eh2).
    cbn [Py.bind length Nat.eqb].
    pose proof (B0 _ Ha0). pose proof (B1 _ Ha1). pose proof (B2 _ Ha2).
    rewrite from_bounds_ordered by lia.
    eexists. split; [reflexivity|].
    assert (Hco : forall idx, idx ∈ hits ->
      exists z y x, idx = [z; y; x] /\ z < c /\ y < h /\ x < w
                  /\ l0 <= z <= h0 /\ l1 <= y <= h1 /\ l2 <= x <= h2).
    { intros idx Hidx. pose proof (Hinb idx Hidx) as Hin.
      pose proof (inb_length [c; h; w] idx Hin) as Hlen.
      destruct idx as [|z [|y [|x [|]]]]; try discriminate Hlen.
      apply (inb3 c h w) in Hin. specialize (B0 _ Hidx).
      specialize (B1 _ Hidx). specialize (B2 _ Hidx).
      simpl in B0, B1, B2. exists z, y, x. repeat split; lia. }
    destruct (Hco _ Ha0) as (za0 & ya0 & xa0 & -> & Ga0).
    destruct (Hco _ Hb0) as (zb0 & yb0 & xb0 & -> & Gb0).
    destruct (Hco _ Ha1) as (za1 & ya1 & xa1 & -> & Ga1).
    destruct (Hco _ Hb1) as (zb1 & yb1 & xb1 & -> & Gb1).
    destruct (Hco _ Ha2) as (za2 & ya2 & xa2 & -> & Ga2).
    destruct (Hco _ Hb2) as (zb2 & yb2 & xb2 & -> & Gb2).
    simpl in Ea0, Eb0, Ea1, Eb1, Ea2, Eb2. subst za0 zb0 ya1 yb1 xa2 xb2.
    unfold nonneg, Box.C, Box.Ny, Box.Nx, Box.front, dims, offsets; simpl.
    split; [lia|]. split; [bool_lia|]. split; [intros X; discriminate X|].
    split.
    + intros idx Hidx. destruct (Hco _ Hidx) as (z & y & x & -> & G).
      unfold inside, dims, offsets; simpl.
      rewrite ?andb_true_iff, ?Z.leb_le, ?Z.ltb_lt. lia.
    + intros [[[c0 c1] c2] [[o0 o1] o2]] Hc idx Hlen.
      pose proof (Hc _ Ha0) as C1. pose proof (Hc _ Hb0) as C2.
      pose proof (Hc _ Ha1) as C3. pose proof (Hc _ Hb1) as C4.
      pose proof (Hc _ Ha2) as C5. pose proof (Hc _ Hb2) as C6.
      destruct idx as [|z [|y [|x [|]]]]; try discriminate Hlen.
      unfold inside, dims, offsets in *; simpl in *.
      rewrite ?andb_true_iff, ?Z.leb_le, ?Z.ltb_lt in *. lia.
Qed.

(** X17. When a well-formed array of one axis, or of four axes or
    more, has an element above the threshold, [from_data] raises
    [TypeError]: the loop appends two bounds for each axis, and
    [from_bounds] takes six. *)
Theorem from_data_other_rank (X : np.ndarray V) (v : V) (i0 : list nat) :
  np.wf X = true -> np.ndim X = 1 \/ 4 <= np.ndim X -> above X v i0 ->
  Box.from_data X v = Raise TypeError.
Proof.
  intros Hwf Hnd Hi0.
  assert (Hany : np.any (np.greater X v) = true).
  { apply any_spec; [apply wf_greater; exact Hwf|].
    exists i0. apply hits_above. exact Hi0. }
  assert (Hne : np.hits (np.greater X v) <> []).
  { apply hits_above in Hi0. intros E. rewrite E in Hi0.
    apply not_elem_of_nil in Hi0. exact Hi0. }
  unfold Box.from_data, np.where_, np.ndim in *. rewrite Hany.
  destruct X as [sh bf dt]. cbn [np.shape np.greater] in *.
  set (hits := np.hits _) in *. clearbody hits.
  assert (Hlen : forall n ds,
    Forall (fun d => d < n) ds ->
    exists bs,
      Box.bounds_loop
        ((fun d => (fun idx : list nat => default 0 (idx !! d)) <$> hits)
           <$> seq 0 n) ds = Ok bs
      /\ length bs = 2 * length ds).
  { intros n ds. induction 1 as [|d ds Hd _ (bs & Ebs & Lbs)].
    - exists []. split; reflexivity.
    - destruct (column_bounds hits d Hne) as (lo & hi & El & Eh & _).
      cbn [Box.bounds_loop]. rewrite list_lookup_fmap, lookup_seq_lt by exact Hd.
      cbn [fmap option_fmap option_map Nat.add]. rewrite El, Eh, Ebs.
      eexists. split; [reflexivity|]. simpl. lia. }
  destruct (Hlen (length sh) (seq 0 (length sh))) as (bs & Ebs & Lbs).
  { apply Forall_forall. intros d Hd. apply elem_of_seq in Hd. lia. }
  rewrite Ebs. rewrite length_seq in Lbs. cbn [Py.bind].
  destruct (Nat.eqb_spec (length sh) 2) as [E|_]; [lia|]. cbn [Py.bind].
  destruct bs as [|? [|? [|? [|? [|? [|? [|? [|? ?]]]]]]]];
    simpl in Lbs; try reflexivity; lia.
Qed.

End Thresholds.

(** ** Components: construction, projection and renders *)

Section Components.
Context {V : Type} `{np.Elem V}.

(** The projection of a model into any frame, for a component whose
    cache is the one its setters compute. *)
Lemma model_to_frame_ok (self : Component.t)
    (gm : result (np.ndarray V)) (F : Frame.t) (model : np.ndarray V) :
  cache_ok self ->
  nonneg (Frame.bbox F) -> nonneg (Component._bbox self) ->
  np.wf model = true ->
  np.shape model = Z.to_nat <$> Box.tuple (Box.shape (Component._bbox self)) ->
  (Frame.__eq__ F (Component._frame self) = true -> F = Component._frame self) ->
  exists r,
    Component.model_to_frame self gm (Some F) (Some model) = Ok r
    /\ np.shape r = Z.to_nat <$> Box.tuple (Frame.shape F)
    /\ np.dtype r = default (np.dtype model) (Frame.dtype F)
    /\ np.wf r = true
    /\ forall idx, np.inb (np.shape r) idx = true ->
         np.item r idx
         = Some (from_option id np.zero
                   (pixel model
                      (shift idx (relative (Frame.bbox F)
                                           (Component._bbox self))))).
Proof.
  intros Hc HF HB Hwf Hm Hid.
  unfold Component.model_to_frame. cbn [Py.bind].
  destruct (Frame.__eq__ F (Component._frame self)) eqn:E.
  - specialize (Hid eq_refl). subst F.
    unfold cache_ok in Hc. rewrite overlapped_slices_closed in Hc.
    injection Hc as <- <-. cbn [Py.bind].
    apply fill_overlap; assumption.
  - rewrite overlapped_slices_closed. cbn [Py.bind].
    apply fill_overlap; assumption.
Qed.

Lemma deref_app_old (h : Heap.t V) (r : np.ndarray V) l :
  l < length h -> Heap.deref (h ++ [r]) l = Heap.deref h l.
Proof. intros Hl. unfold Heap.deref. rewrite lookup_app_l by exact Hl. reflexivity. Qed.

Lemma deref_app_new (h : Heap.t V) (r : np.ndarray V) :
  Heap.deref (h ++ [r]) (length h) = r.
Proof.
  unfold Heap.deref. rewrite lookup_app_r by lia.
  rewrite Nat.sub_diag. reflexivity.
Qed.



Lemma indices_full n : np.indices (np.Slice None None) n = (0, n).
Proof.
  unfold np.indices; simpl. f_equal. lia.
Qed.

Lemma bc_shape_outer C Hh W :
  np.bc_shape [1; 1; C] [W; Hh; 1] = Some [W; Hh; C].
Proof.
  simpl.
  destruct W as [|[|W]], Hh as [|[|Hh]], C as [|[|C]]; simpl;
    rewrite ?Nat.eqb_refl; reflexivity.
Qed.

(** X19. Spec-modelled [get_models_of_children]: the renders of
    the spectrum and of the morphology are their value arrays. For a
    spectrum of shape (C) and a morphology of shape (H, W),
    [FactorizedComponent.get_model] without a frame returns a newly
    allocated array of shape (C, H, W) whose element at (c, y, x) is the
    product of element c of the spectrum and element (y, x) of the
    morphology; every array that existed before is unchanged. *)
Theorem factorized_render_is_outer_product (self : Component.t)
    (sp : Spectrum.t) (mo : Morphology.t) (h : Heap.t V) (C Hh W : nat) :
  let s := Heap.deref h (Spectrum.value sp) in
  let m := Heap.deref h (Morphology.value mo) in
  np.wf s = true -> np.wf m = true ->
  np.shape s = [C] -> np.shape m = [Hh; W] ->
  exists r,
    get_model (Factorized self sp mo) None h = Ok (length h, h ++ [r])
    /\ (forall l, l < length h -> Heap.deref (h ++ [r]) l = Heap.deref h l)
    /\ np.shape r = [C; Hh; W]
    /\ np.dtype r = np.result_type (np.dtype s) (np.dtype m)
    /\ np.wf r = true
    /\ forall c y x, c < C -> y < Hh -> x < W ->
         np.item r [c; y; x] = Some (np.mul (np.get s [c]) (np.get m [y; x])).
Proof.
  intros s m Hws Hwm Hs Hm.
  unfold get_model, Spectrum.get_model, Morphology.get_model, project,
    Heap.bind, Heap.ret, Heap.read, Heap.lift, Heap.alloc.
  fold s m. unfold np.getitem. rewrite Hs, Hm.
  cbn [np.resolve Py.bind fmap list_fmap]. rewrite !indices_full.
  cbn [fst snd np.view_shape np.axis_len fmap list_fmap Py.bind].
  unfold np.binary. cbn [np.shape reverse rev_append].
  change (reverse [C; 1; 1]) with [1; 1; C].
  change (reverse [1; Hh; W]) with [W; Hh; 1].
  rewrite bc_shape_outer. change (reverse [W; Hh; C]) with [C; Hh; W].
  eexists. split; [reflexivity|].
  split; [intros l Hl; apply deref_app_old; exact Hl|].
  split; [reflexivity|]. split; [reflexivity|].
  split; [apply wf_tabulate|].
  intros c y x Hc Hy Hx. rewrite item_tabulate.
  replace (np.inb [C; Hh; W] [c; y; x]) with true
    by (symmetry; apply inb3; lia).
  f_equal. cbn [np.dtype np.shape].
  assert (E1 : np.bsource [C; 1; 1] [c; y; x] = [c; 0; 0]).
  { unfold np.bsource. change (reverse [C; 1; 1]) with [1; 1; C].
    change (reverse [c; y; x]) with [x; y; c]. simpl.
    destruct (Nat.eqb_spec C 1); [|reflexivity].
    replace c with 0 by lia. reflexivity. }
  assert (E2 : np.bsource [1; Hh; W] [c; y; x] = [0; y; x]).
  { unfold np.bsource. change (reverse [1; Hh; W]) with [W; Hh; 1].
    change (reverse [c; y; x]) with [x; y; c]. simpl.
    destruct (Nat.eqb_spec W 1) as [->|], (Nat.eqb_spec Hh 1) as [->|];
      cbn; repeat (f_equal; try lia). }
  rewrite E1, E2.
  rewrite (get_tabulate [C; 1; 1]
             (fun idx => np.get s
                (np.source [np.Range 0 C; np.New; np.New] idx)))
    by (apply inb3; lia).
  rewrite (get_tabulate [1; Hh; W]
             (fun idx => np.get m
                (np.source [np.New; np.Range 0 Hh; np.Range 0 W] idx)))
    by (apply inb3; lia).
  reflexivity.
Qed.

(** X20. [CubeComponent.__init__] accepts every array, wrapping it
    in a parameter named "cube" over the same array, accepts a parameter
    named "cube" as it is, and raises [AssertionError] for a parameter of
    another name; the component takes the frame given and the box given,
    or the box of the frame when none is given. *)
Theorem cube_init_checks_the_name (frame : Frame.t) (bbox : option Box.t)
    (p : Param.t) (a : Heap.loc) :
  exists self,
    Component.__init__ frame bbox = Ok self
    /\ Component._frame self = frame
    /\ Component._bbox self = default (Frame.bbox frame) bbox
    /\ CubeComponent.__init__ frame (CubeComponent.OfArray a) bbox
       = Ok (Cube self (Param.Param "cube" a))
    /\ CubeComponent.__init__ frame (CubeComponent.OfParameter p) bbox
       = if String.eqb (Param.name p) "cube"
         then Ok (Cube self p) else Raise AssertionError.
Proof.
  unfold CubeComponent.__init__, Component.__init__.
  rewrite overlapped_slices_closed. cbn [Py.bind].
  eexists. split; [reflexivity|]. split; [reflexivity|].
  split; [reflexivity|]. split; [reflexivity|].
  destruct (String.eqb (Param.name p) "cube"); reflexivity.
Qed.

(** X21. Spec-modelled [overlapped_slices]. For a component whose
    cached slices are the ones its setters compute, assigning a frame [F]
    through the setter of [frame] raises nothing, keeps the box and
    leaves a cache of that kind; and [model_to_frame] without a frame on
    the updated component is [model_to_frame] with the frame [F] on the
    original one, for every model argument. *)
Theorem model_to_frame_agrees_with_setter (self : Component.t) (F : Frame.t) :
  cache_ok self ->
  (Frame.__eq__ F (Component._frame self) = true -> F = Component._frame self) ->
  exists self',
    Component.set_frame self F = Ok self'
    /\ Component._bbox self' = Component._bbox self
    /\ Component._frame self' = F
    /\ cache_ok self'
    /\ forall (gm : result (np.ndarray V)) model,
         Component.model_to_frame self gm (Some F) model
         = Component.model_to_frame self' gm None model.
Proof.
  intros Hc Hid. unfold Component.set_frame.
  rewrite overlapped_slices_closed. cbn [Py.bind].
  eexists. split; [reflexivity|]. split; [reflexivity|].
  split; [reflexivity|].
  split; [unfold cache_ok; cbn; apply overlapped_slices_closed|].
  intros gm model. unfold Component.model_to_frame.
  destruct (match model with Some m => Ok m | None => gm end) as [m|e];
    [|reflexivity].
  cbn [Py.bind].
  destruct (Frame.__eq__ F (Component._frame self)) eqn:E.
  - specialize (Hid eq_refl). subst F.
    unfold cache_ok in Hc. rewrite overlapped_slices_closed in Hc.
    injection Hc as <- <-. reflexivity.
  - rewrite overlapped_slices_closed. reflexivity.
Qed.



End Components.

(** ** The further theorems at the worked examples *)

Ltac nonneg_example := unfold nonneg; vm_compute; intuition discriminate.

Lemma or_covers_both_witness :
  nonneg boxA /\ nonneg boxB
  /\ exists u, Box.__or__ boxA boxB = Ok u
       /\ Box.contains u [0; 7; 7]%Z = Ok true.
Proof.
  assert (Ha : nonneg boxA) by nonneg_example.
  assert (Hb : nonneg boxB) by nonneg_example.
  split; [exact Ha|]. split; [exact Hb|].
  destruct (or_covers_both boxA boxB Ha Hb) as (u & Hu & _ & _ & Hin & _).
  exists u. split; [exact Hu|]. apply Hin. reflexivity.
Defined.

Lemma or_and_laws_witness :
  nonneg boxA /\ nonneg boxB
  /\ (let! u := Box.__or__ boxA boxB in Box.__and__ boxA u) = Ok boxA.
Proof.
  assert (Ha : nonneg boxA) by nonneg_example.
  assert (Hb : nonneg boxB) by nonneg_example.
  split; [exact Ha|]. split; [exact Hb|].
  exact (proj2 (proj2 (proj2 (proj2 (or_and_laws boxA boxB Ha Hb))))).
Defined.

Lemma and_of_meeting_boxes_witness :
  meeting boxA box0
  /\ exists r, Box.__and__ boxA box0 = Ok r
       /\ Box.origin r = (0, 1, 1)%Z
       /\ in_box r [0; 1; 1]%Z = true.
Proof.
  assert (Hm : meeting boxA box0)
    by (unfold meeting; vm_compute; intuition discriminate).
  split; [exact Hm|].
  destruct (and_of_meeting_boxes boxA box0 Hm) as (r & Hr & _ & Ho & Hin).
  exists r. split; [exact Hr|]. split; [exact Ho|].
  rewrite Hin. reflexivity.
Defined.

Lemma slices_for_selects_box_witness :
  nonneg region1
  /\ exists sl axes,
       Box.slices_for region1 (Box.Im source1) = Ok sl
       /\ np.resolve (np.shape source1) (np.Idx <$> sl) = Ok axes
       /\ np.locate axes [1; 0; 1] = Some [1; 0; 0]
       /\ np.locate axes [1; 0; 0] = None.
Proof.
  assert (Hnn : nonneg region1) by nonneg_example.
  split; [exact Hnn|].
  destruct (slices_for_selects_box (V := Z) region1 source1 Hnn
              (or_intror eq_refl))
    as (sl & axes & Hs & _ & Hr & Hl).
  exists sl, axes. split; [exact Hs|]. split; [exact Hr|].
  split; rewrite Hl by reflexivity; reflexivity.
Defined.

Lemma from_image_extent_witness :
  exists b, Box.from_image source0 = Ok b
    /\ Box.C b = 0%Z
    /\ dims b 2 = [1; 1]%Z.
Proof.
  destruct (from_image_extent (V := Z) source0 (or_introl eq_refl))
    as (b & Hb & _ & Hd & Hc & _).
  exists b. split; [exact Hb|]. split; [exact (Hc eq_refl) | exact Hd].
Defined.

Lemma bad_rank_raises_witness :
  Box.from_image line0 = Raise AssertionError
  /\ Box.insert_into region0 target0 line0 = Raise AssertionError.
Proof.
  destruct (bad_rank_raises (V := Z) region0 line0 target0 None)
    as (Hf & _ & _ & _ & Ho).
  - discriminate.
  - discriminate.
  - split; [exact Hf|]. exact (proj2 (Ho (or_introl eq_refl))).
Defined.




Lemma from_data_nothing_above_witness :
  np.wf source0 = true
  /\ Box.from_data source0 5%Z = Ok (Box.Box (0, 0, 0)%Z (0, 0, 0)%Z).
Proof.
  split; [reflexivity|].
  apply (from_data_nothing_above (V := Z) source0 5%Z); [reflexivity|].
  intros idx (Hin & e & He & Hgt).
  pose proof (inb_length [1; 1] idx Hin) as Hlen.
  destruct idx as [|y [|x [|]]]; try discriminate Hlen.
  apply (inb2 1 1) in Hin as (Hy & Hx).
  assert (y = 0) as -> by lia. assert (x = 0) as -> by lia.
  injection He as <-. discriminate Hgt.
Defined.

Lemma from_data_bounds_witness :
  np.wf source1 = true /\ above source1 6%Z [1; 1; 0]
  /\ exists b, Box.from_data source1 6%Z = Ok b
       /\ inside b [1; 1; 1] = true
       /\ fits b source1 = true.
Proof.
  assert (Ha : above source1 6%Z [1; 1; 0]).
  { split; [reflexivity|]. exists 7%Z. split; reflexivity. }
  assert (Hb : above source1 6%Z [1; 1; 1]).
  { split; [reflexivity|]. exists 8%Z. split; reflexivity. }
  split; [reflexivity|]. split; [exact Ha|].
  destruct (from_data_bounds (V := Z) source1 6%Z [1; 1; 0] eq_refl
              (or_intror eq_refl) Ha)
    as (b & Hd & _ & Hfit & _ & Hin & _).
  exists b. split; [exact Hd|]. split; [exact (Hin _ Hb) | exact Hfit].
Defined.

Lemma from_data_other_rank_witness :
  np.wf line0 = true /\ above line0 0%Z [0]
  /\ Box.from_data line0 0%Z = Raise TypeError.
Proof.
  assert (Ha : above line0 0%Z [0]).
  { split; [reflexivity|]. exists 2%Z. split; reflexivity. }
  split; [reflexivity|]. split; [exact Ha|].
  exact (from_data_other_rank (V := Z) line0 0%Z [0] eq_refl
           (or_introl eq_refl) Ha).
Defined.


Lemma factorized_render_is_outer_product_witness :
  exists r,
    get_model (Factorized comp0 spectrum0 morphology0) None store1
    = Ok (2, store1 ++ [r])
    /\ np.shape r = [2; 1; 2]
    /\ np.item r [1; 0; 1] = Some 21%Z.
Proof.
  destruct (factorized_render_is_outer_product (V := Z) comp0 spectrum0
              morphology0 store1 2 1 2 eq_refl eq_refl eq_refl eq_refl)
    as (r & Hr & _ & Hsh & _ & _ & Hit).
  exists r. split; [exact Hr|]. split; [exact Hsh|].
  rewrite Hit by lia. reflexivity.
Defined.

Lemma model_to_frame_agrees_with_setter_witness :
  cache_ok comp0
  /\ exists self',
       Component.set_frame comp0 frame1 = Ok self'
       /\ Component.model_to_frame comp0 (Raise TypeError) (Some frame1)
            (Some cube0)
          = Component.model_to_frame self' (Raise TypeError) None (Some cube0).
Proof.
  assert (Hc : cache_ok comp0) by reflexivity.
  split; [exact Hc|].
  destruct (model_to_frame_agrees_with_setter (V := Z) comp0 frame1 Hc)
    as (self' & Hs & _ & _ & _ & Heq).
  - intros E. discriminate E.
  - exists self'. split; [exact Hs | apply Heq].
Defined.

